(** * gvm-cli: session orchestration of [gmp/clients/gvm_cli.py]

    A shallow embedding of [main] and of the library calls it relies on
    (argparse's layered defaults, configparser's section lookup, the
    standard streams, the transport objects), followed by the properties
    of the specification that are settled on it. *)

From Stdlib Require Import ZArith Ascii String List.
From stdpp Require Import base option list strings gmap.

Local Open Scope string_scope.
Local Open Scope Z_scope.
Local Open Scope list_scope.

(** ** Python values *)

(** The objects that end up in the argparse namespace. *)
Inductive value :=
| VNone
| VStr (s : string)
| VInt (z : Z)
| VBool (b : bool).

#[global] Instance value_eq_dec : EqDecision value.
Proof. solve_decision. Defined.

(** Truth value of an object, as [if x:] and [not x] test it. *)
Definition truthy (v : value) : bool :=
  match v with
  | VNone => false
  | VStr s => negb (String.eqb s "")
  | VInt z => negb (z =? 0)
  | VBool b => b
  end.

Definition is_none (v : value) : bool :=
  match v with VNone => true | _ => false end.

(** ** Strings *)

Definition LF : ascii := "010"%char.
Definition CR : ascii := "013"%char.

(** [s.replace(c, '')] for a one-character [c]. *)
Fixpoint remove_char (c : ascii) (s : string) : string :=
  match s with
  | EmptyString => EmptyString
  | String a t => if Ascii.eqb a c then remove_char c t
                  else String a (remove_char c t)
  end.

(** [xml.replace('\n', '').replace('\r', '')] (line 187). *)
Definition strip_newlines (xml : string) : string :=
  remove_char CR (remove_char LF xml).

(** [needle in hay] on two strings: substring containment. *)
Fixpoint contains (needle hay : string) : bool :=
  String.prefix needle hay ||
  match hay with
  | EmptyString => false
  | String _ t => contains needle t
  end.

(** The first line of a stream and what follows it; the line comes
    without its terminating newline, as [input()] returns it. *)
Fixpoint split_line (s : string) : string * string :=
  match s with
  | EmptyString => (EmptyString, EmptyString)
  | String a t =>
      if Ascii.eqb a LF then (EmptyString, t)
      else let '(l, r) := split_line t in (String a l, r)
  end.

(** ** Exceptions *)

Inductive exn_class :=
| EOFError
| BlockingIOError
| TypeError
| AttributeError
| NoSectionError
| ParsingError
| OtherError (name : string).

#[global] Instance exn_class_eq_dec : EqDecision exn_class.
Proof. solve_decision. Defined.

(** An exception object; [exn_msg] is what [str(e)] gives.  Only
    subclasses of [Exception] are modelled (no keyboard interrupt). *)
Record exn := Exn { exn_cls : exn_class; exn_msg : string }.

#[global] Instance exn_eq_dec : EqDecision exn.
Proof. solve_decision. Defined.

(** ** Transports *)

(** The three constructors of [gmp.gmp] with their keyword arguments,
    in the order the call sites of lines 197-209 give them. *)
Inductive connection :=
| UnixSocketConnection (sockpath raw_response timeout : value)
| TLSConnection (hostname port certfile keyfile cafile
                 raw_response timeout : value)
| SSHConnection (hostname port timeout raw_response
                 ssh_user ssh_password : value).

#[global] Instance connection_eq_dec : EqDecision connection.
Proof. solve_decision. Defined.

(** ** Observable events of a run *)

Inductive event :=
| Print (s : string)
| InfileRead
| Input
| Getpass (prompt : string)
| Connect (c : connection)
| Authenticate (username password : value)
| Send (xml : string)
| Read
| Close.

#[global] Instance event_eq_dec : EqDecision event.
Proof. solve_decision. Defined.

(** ** The world a run executes in *)

(** What [config.read(path)] finds.  A missing or unreadable file is
    skipped silently by configparser; a file that does not parse raises. *)
Inductive file_state :=
| FileAbsent
| FileMalformed (msg : string)
| FileParsed (sections : gmap string (gmap string string)).

Record world := World {
  (* command line *)
  cl_config : option string;
  cl_help_or_version : bool;
  cl_connection_type : option string;
  cl_options : gmap string value;
  cl_infile : option string;
  (* file system *)
  expanduser : string -> string;
  config_file : string -> file_state;
  basicConfig : value -> option exn;
  (* standard input and the controlling terminal *)
  stdin_isatty : bool;
  stdin_data : string;
  infile_read_error : option exn;
  getpass : string -> exn + string;
  (* transport collaborators *)
  connect : connection -> option exn;
  authenticate : connection -> value -> value -> option exn;
  send : connection -> string -> option exn;
  read : connection -> string -> exn + string
}.

(** ** The monad of a run: state, exceptions and [sys.exit] *)

Record state := State { stdin : string; trace : list event }.

Inductive outcome (A : Type) :=
| Return (a : A)
| Raised (e : exn)
| Exited (code : Z).
Arguments Return {A} a.
Arguments Raised {A} e.
Arguments Exited {A} code.

Definition M (A : Type) : Type := state -> state * outcome A.

Definition ret {A} (a : A) : M A := fun st => (st, Return a).

Definition bind {A B} (m : M A) (k : A -> M B) : M B :=
  fun st =>
    match m st with
    | (st', Return a) => k a st'
    | (st', Raised e) => (st', Raised e)
    | (st', Exited c) => (st', Exited c)
    end.

Notation "'let!' x ':=' m 'in' k" := (bind m (fun x => k))
  (at level 10, x name, m at level 100, k at level 200).
Notation "m ';;;' k" := (bind m (fun _ => k))
  (at level 100, k at level 200, right associativity).

Definition raise {A} (e : exn) : M A := fun st => (st, Raised e).

Definition sys_exit {A} (code : Z) : M A := fun st => (st, Exited code).

Definition emit (ev : event) : M unit :=
  fun st => ({| stdin := stdin st; trace := trace st ++ [ev] |}, Return tt).

(** [try: body except Exception as e: handler(e)]; [sys.exit] raises
    [SystemExit], which is no [Exception] and passes through. *)
Definition try_except {A} (body : M A) (handler : exn -> M A) : M A :=
  fun st =>
    match body st with
    | (st', Raised e) => handler e st'
    | r => r
    end.

(** The status the operating system sees: the argument of [sys.exit],
    or 1 when the interpreter ends on an uncaught exception. *)
Definition process_status {A} (o : outcome A) : Z :=
  match o with
  | Return _ => 0
  | Raised _ => 1
  | Exited c => c
  end.

(** ** argparse: actions, parser-level defaults, namespaces *)

(** An option or positional registered on a parser.  [default_] is the
    default the action carries, fixed when the argument is added. *)
Record action := Action {
  dest : string;
  default_ : value;
  required : bool
}.

Record parser := Parser {
  actions : list action;
  parser_defaults : gmap string value
}.

Definition ArgumentParser : parser := Parser [] ∅.

(** [parser.set_defaults] on a dict of keywords: they are stored as
    parser-level defaults and replace the default of every action that
    is already registered under one of them. *)
Definition set_defaults (kwargs : gmap string value) (p : parser) : parser :=
  {| actions :=
       (fun a => match kwargs !! dest a with
                 | Some v => Action (dest a) v (required a)
                 | None => a
                 end) <$> actions p;
     parser_defaults := kwargs ∪ parser_defaults p |}.

(** [parser.add_argument(...)], by destination.  [explicit] is the
    [default=] keyword when the call has one; without it the action takes
    the parser-level default of its destination, or [None]. *)
Definition add_argument (d : string) (explicit : option value)
    (req : bool) (p : parser) : parser :=
  let v := match explicit with
           | Some v => v
           | None => default VNone (parser_defaults p !! d)
           end in
  {| actions := actions p ++ [Action d v req];
     parser_defaults := parser_defaults p |}.

(** [subparsers.add_parser(name, parents=[parent])]: the new parser
    starts from the parent's actions and parser-level defaults. *)
Definition add_parser (parent : parser) : parser :=
  {| actions := actions parent;
     parser_defaults := parser_defaults parent |}.

Definition action_defaults (p : parser) : gmap string value :=
  list_to_map ((fun a => (dest a, default_ a)) <$> actions p).

(** [parser.parse_known_args] on the options [given] (destination to
    stored value): an option the parser does not know, or a required
    one that is missing, is a usage error; otherwise the namespace holds
    the given values, then the action defaults, then the parser-level
    defaults for whatever is still unset. *)
Definition parse_known_args (p : parser) (given : gmap string value)
    : option (gmap string value) :=
  if decide (map_Forall (fun k _ => k ∈ dest <$> actions p) given) then
    if decide (Forall (fun a => required a = true -> is_Some (given !! dest a))
                      (actions p))
    then Some (given ∪ action_defaults p ∪ parser_defaults p)
    else None
  else None.

Fixpoint name_parser_map (subparsers : list (string * parser))
    (name : string) : option parser :=
  match subparsers with
  | [] => None
  | (n, p) :: rest => if decide (n = name) then Some p
                      else name_parser_map rest name
  end.

(** [args.name]. *)
Definition getattr (args : gmap string value) (name : string) : M value :=
  match args !! name with
  | Some v => ret v
  | None => raise (Exn AttributeError
                     ("'Namespace' object has no attribute '" +:+ name +:+ "'"))
  end.

(** A value used where the code needs a string. *)
Definition as_str (v : value) : M string :=
  match v with
  | VStr s => ret s
  | _ => raise (Exn TypeError "str expected")
  end.

(** [needle in v]. *)
Definition py_in (needle : string) (v : value) : M bool :=
  match v with
  | VStr s => ret (contains needle s)
  | _ => raise (Exn TypeError "argument is not iterable")
  end.

(** ** The collaborators, as calls that leave an event *)

Definition print (s : string) : M unit := emit (Print s).

Definition lift_error (r : option exn) : M unit :=
  match r with
  | Some e => raise e
  | None => ret tt
  end.

Definition lift_result {A} (r : exn + A) : M A :=
  match r with
  | inl e => raise e
  | inr a => ret a
  end.

(** [config.read(path)]: the sections found at [path]. *)
Definition config_read (w : world) (path : string)
    : M (gmap string (gmap string string)) :=
  match config_file w path with
  | FileAbsent => ret ∅
  | FileMalformed msg => raise (Exn ParsingError msg)
  | FileParsed sections => ret sections
  end.

(** [config.items(section)]. *)
Definition config_items (sections : gmap string (gmap string string))
    (section : string) : M (gmap string string) :=
  match sections !! section with
  | Some items => ret items
  | None => raise (Exn NoSectionError ("No section: '" +:+ section +:+ "'"))
  end.

(** [args.infile] is [sys.stdin] unless a file was named on the command
    line; a file on disk is no terminal. *)
Definition infile_isatty (w : world) : bool :=
  match cl_infile w with
  | None => stdin_isatty w
  | Some _ => false
  end.

(** [sys.stdin.read()]: everything that is left on the stream. *)
Definition stdin_read : M string :=
  fun st => ({| stdin := ""; trace := trace st |}, Return (stdin st)).

(** [sys.stdin.readline()] without the newline, [EOFError] at the end
    of the stream. *)
Definition stdin_line : M string :=
  fun st =>
    match stdin st with
    | EmptyString => (st, Raised (Exn EOFError "EOF when reading a line"))
    | s => ({| stdin := (split_line s).2; trace := trace st |},
            Return (split_line s).1)
    end.

(** [args.infile.read()]: the stream up to its end. *)
Definition infile_read (w : world) : M string :=
  emit InfileRead ;;;
  lift_error (infile_read_error w) ;;;
  match cl_infile w with
  | Some data => ret data
  | None => stdin_read
  end.

(** [input()]: one line of [sys.stdin]. *)
Definition input : M string :=
  emit Input ;;; stdin_line.

(** [getpass.getpass(prompt)]. *)
Definition call_getpass (w : world) (prompt : string) : M string :=
  emit (Getpass prompt) ;;; lift_result (getpass w prompt).

(** A transport constructor: the handle is the constructed connection. *)
Definition construct (w : world) (c : connection) : M connection :=
  emit (Connect c) ;;; lift_error (connect w c) ;;; ret c.

Definition gvm_authenticate (w : world) (gvm : connection)
    (username password : value) : M unit :=
  emit (Authenticate username password) ;;;
  lift_error (authenticate w gvm username password).

Definition gvm_send (w : world) (gvm : connection) (xml : string) : M unit :=
  emit (Send xml) ;;; lift_error (send w gvm xml).

Definition gvm_read (w : world) (gvm : connection) (xml : string) : M string :=
  emit Read ;;; lift_result (read w gvm xml).

Definition gvm_close : M unit := emit Close.

(** ** [main], stage by stage *)

(** Lines 91-94. *)
Definition builtin_defaults : gmap string value :=
  {[ "gmp_username" := VStr ""; "gmp_password" := VStr "" ]}.

(** Lines 96-104: the [Auth] section replaces [defaults] when it can be
    loaded; any exception on the way is printed and [defaults] stays. *)
Definition load_config (w : world) : M (gmap string value) :=
  match cl_config w with
  | Some config =>
      if truthy (VStr config) then
        try_except
          (let path := expanduser w config in
           let! sections := config_read w path in
           let! items := config_items sections "Auth" in
           ret (VStr <$> items))
          (fun e => print (exn_msg e) ;;; ret builtin_defaults)
      else ret builtin_defaults
  | None => ret builtin_defaults
  end.

(** Lines 85-88 and 106-122: the parent parser.  The positional
    [infile] is kept in the world ([cl_infile]). *)
Definition parent_parser (defaults : gmap string value) : parser :=
  let p := ArgumentParser in
  let p := add_argument "config" None false p in
  let p := set_defaults defaults p in
  let p := add_argument "timeout" (Some (VInt 60)) false p in
  let p := add_argument "loglevel" None false p in
  let p := add_argument "gmp_username" None false p in
  let p := add_argument "gmp_password" None false p in
  let p := add_argument "xml" None false p in
  let p := add_argument "raw" (Some (VBool false)) false p in
  p.

(** Lines 123-131. *)
Definition parser_ssh (defaults : gmap string value) : parser :=
  let p := add_parser (parent_parser defaults) in
  let p := add_argument "hostname" None true p in
  let p := add_argument "port" (Some (VInt 22)) false p in
  let p := add_argument "ssh_user" (Some (VStr "gmp")) false p in
  p.

(** Lines 133-145. *)
Definition parser_tls (defaults : gmap string value) : parser :=
  let p := add_parser (parent_parser defaults) in
  let p := add_argument "hostname" None true p in
  let p := add_argument "port" (Some (VInt 9390)) false p in
  let p := add_argument "certfile" (Some VNone) false p in
  let p := add_argument "keyfile" (Some VNone) false p in
  let p := add_argument "cafile" (Some VNone) false p in
  p.

(** Lines 147-152. *)
Definition parser_socket (defaults : gmap string value) : parser :=
  let p := add_parser (parent_parser defaults) in
  let p := add_argument "sockpath"
             (Some (VStr "/usr/local/var/run/gvmd.sock")) false p in
  p.

Definition subparsers (defaults : gmap string value)
    : list (string * parser) :=
  [("ssh", parser_ssh defaults);
   ("tls", parser_tls defaults);
   ("socket", parser_socket defaults)].

(** Line 159, [parser.parse_args(remaining_args)].  Help and version
    print and leave with 0; a missing or unknown sub-command and a usage
    error of the sub-parser leave with 2.  The sub-command is parsed into
    a namespace of its own, whose attributes are then all copied over
    the top-level one, which so far holds [connection_type]. *)
Definition parse_args (w : world) (defaults : gmap string value)
    : M (gmap string value) :=
  if cl_help_or_version w then sys_exit 0
  else match cl_connection_type w with
       | None => sys_exit 2
       | Some name =>
           match name_parser_map (subparsers defaults) name with
           | None => sys_exit 2
           | Some sub =>
               match parse_known_args sub (cl_options w) with
               | None => sys_exit 2
               | Some subnamespace =>
                   ret (subnamespace ∪ {[ "connection_type" := VStr name ]})
               end
           end
       end.

(** Lines 161-164. *)
Definition setup_logging (w : world) (args : gmap string value) : M unit :=
  let! loglevel := getattr args "loglevel" in
  if is_none loglevel then ret tt
  else lift_error (basicConfig w loglevel).

(** Lines 166-168. *)
Definition resolve_timeout (args : gmap string value)
    : M (gmap string value) :=
  let! timeout := getattr args "timeout" in
  if decide (timeout = VInt (-1)) then ret (<[ "timeout" := VNone ]> args)
  else ret args.

(** Lines 170-180: the flag, else the piped stream.  [EOFError] and
    [BlockingIOError] of the read are printed and leave [xml] empty. *)
Definition flag_or_stream (w : world) (args : gmap string value) : M string :=
  let! args_xml := getattr args "xml" in
  if negb (is_none args_xml) then as_str args_xml
  else if negb (infile_isatty w) then
    try_except (infile_read w)
      (fun e => match exn_cls e with
                | EOFError | BlockingIOError => print (exn_msg e) ;;; ret ""
                | _ => raise e
                end)
  else ret "".

(** Lines 182-184. *)
Definition ask_if_empty (xml : string) : M string :=
  if (String.length xml =? 0)%nat then input else ret xml.

(** Lines 170-184: the payload as acquired, before line 187. *)
Definition acquire_xml (w : world) (args : gmap string value) : M string :=
  let! xml := flag_or_stream w args in
  ask_if_empty xml.

(** Lines 189-192. *)
Definition ask_password (w : world) (args : gmap string value)
    : M (gmap string value) :=
  let! gmp_username := getattr args "gmp_username" in
  if truthy gmp_username then
    let! gmp_password := getattr args "gmp_password" in
    if negb (truthy gmp_password) then
      let! name := as_str gmp_username in
      let! secret := call_getpass w ("Enter password for " +:+ name +:+ ": ") in
      ret (<[ "gmp_password" := VStr secret ]> args)
    else ret args
  else ret args.

(** Lines 196-209, the body of the [try]: "Open the right connection.
    SSH at last for default". *)
Definition build_connection (w : world) (args : gmap string value)
    : M connection :=
  let! connection_type := getattr args "connection_type" in
  let! is_socket := py_in "socket" connection_type in
  if is_socket then
    let! sockpath := getattr args "sockpath" in
    let! raw := getattr args "raw" in
    let! timeout := getattr args "timeout" in
    construct w (UnixSocketConnection sockpath raw timeout)
  else
    let! is_tls := py_in "tls" connection_type in
    if is_tls then
      let! hostname := getattr args "hostname" in
      let! port := getattr args "port" in
      let! certfile := getattr args "certfile" in
      let! keyfile := getattr args "keyfile" in
      let! cafile := getattr args "cafile" in
      let! raw := getattr args "raw" in
      let! timeout := getattr args "timeout" in
      construct w (TLSConnection hostname port certfile keyfile cafile
                                 raw timeout)
    else
      let! hostname := getattr args "hostname" in
      let! port := getattr args "port" in
      let! timeout := getattr args "timeout" in
      let! raw := getattr args "raw" in
      let! ssh_user := getattr args "ssh_user" in
      construct w (SSHConnection hostname port timeout raw ssh_user
                                 (VStr "")).

(** Lines 195-212: a failure of the body is printed and ends the
    process with [sys.exit(1)]. *)
Definition open_connection (w : world) (args : gmap string value)
    : M connection :=
  try_except (build_connection w args)
    (fun e => print (exn_msg e) ;;; sys_exit 1).

(** Lines 214-223. *)
Definition session (w : world) (args : gmap string value)
    (gvm : connection) (xml : string) : M unit :=
  let! gmp_username := getattr args "gmp_username" in
  (if truthy gmp_username then
     let! gmp_password := getattr args "gmp_password" in
     gvm_authenticate w gvm gmp_username gmp_password
   else ret tt) ;;;
  gvm_send w gvm xml ;;;
  let! result := gvm_read w gvm xml in
  print result ;;;
  gvm_close ;;;
  sys_exit 0.

(** Lines 89-159: the effective namespace. *)
Definition resolve_args (w : world) : M (gmap string value) :=
  let! defaults := load_config w in
  parse_args w defaults.

(** Lines 159-168: the namespace the rest of [main] works on. *)
Definition preamble (w : world) : M (gmap string value) :=
  let! args := resolve_args w in
  setup_logging w args ;;;
  resolve_timeout args.

Definition main (w : world) : M unit :=
  let! args := preamble w in
  let! xml := acquire_xml w args in
  let xml := strip_newlines xml in
  let! args := ask_password w args in
  let! gvm := open_connection w args in
  session w args gvm xml.

Definition fresh (w : world) : state :=
  {| stdin := stdin_data w; trace := [] |}.

(** A run of the program in [w], from a fresh process. *)
Definition run (w : world) : state * outcome unit :=
  main w (fresh w).

Definition events (w : world) : list event := trace (run w).1.
Definition status (w : world) : Z := process_status (run w).2.

(** * Notions used in the statements *)

(** ** What a computation does to the trace and the input stream *)

(** [emits P E m]: whatever [m] does, it only appends events of class
    [P] to the trace, and if it ends the process through [sys.exit] the
    code satisfies [E]. *)
Definition emits {A} (P : event -> Prop) (E : Z -> Prop) (m : M A) : Prop :=
  forall st st' o, m st = (st', o) ->
    (exists evs, trace st' = trace st ++ evs /\ Forall P evs) /\
    (forall c, o = Exited c -> E c).

Definition is_print (ev : event) : Prop :=
  match ev with Print _ => True | _ => False end.

Definition is_input_event (ev : event) : Prop :=
  match ev with Print _ | InfileRead | Input => True | _ => False end.

Definition is_getpass (ev : event) : Prop :=
  match ev with Getpass _ => True | _ => False end.

Definition is_connect (ev : event) : Prop :=
  match ev with Connect _ => True | _ => False end.

(** Events of the session proper: calls on the constructed transport. *)
Definition is_session_call (ev : event) : Prop :=
  match ev with
  | Authenticate _ _ | Send _ | Read | Close => True
  | _ => False
  end.

(** Everything that can happen before the [try] of line 195. *)
Definition is_early (ev : event) : Prop :=
  match ev with
  | Print _ | InfileRead | Input | Getpass _ => True
  | _ => False
  end.

Definition never (c : Z) : Prop := False.
Definition usage_exit (c : Z) : Prop := c = 0 \/ c = 2.

(** ** The variant the dispatch selects *)

Inductive kind := Socket | Tls | Ssh.

Definition kind_of (c : connection) : kind :=
  match c with
  | UnixSocketConnection _ _ _ => Socket
  | TLSConnection _ _ _ _ _ _ _ => Tls
  | SSHConnection _ _ _ _ _ _ => Ssh
  end.

(** The two containment tests of lines 196 and 200, in their order. *)
Definition dispatch (connection_type : string) : kind :=
  if contains "socket" connection_type then Socket
  else if contains "tls" connection_type then Tls
  else Ssh.

(** [c] is of the variant [dispatch] gives for [args.connection_type]. *)
Definition selects (args : gmap string value) (c : connection) : Prop :=
  exists t, args !! "connection_type" = Some (VStr t) /\
            kind_of c = dispatch t.

(** The constructor calls of a failed [try] body: none, or one that
    raised [e]. *)
Definition failed_attempt (w : world) (args : gmap string value)
    (e : exn) (attempt : list event) : Prop :=
  attempt = [] \/
  exists c, attempt = [Connect c] /\ connect w c = Some e /\ selects args c.

(** ** Shapes of a session and of a run *)

(** Lines 214-215: authentication is skipped, or done and accepted. *)
Inductive auth_step (w : world) (args : gmap string value)
    (gvm : connection) : list event -> Prop :=
| Auth_skipped u :
    args !! "gmp_username" = Some u -> truthy u = false ->
    auth_step w args gvm []
| Auth_done u p :
    args !! "gmp_username" = Some u -> truthy u = true ->
    args !! "gmp_password" = Some p ->
    authenticate w gvm u p = None ->
    auth_step w args gvm [Authenticate u p].

(** The calls a session makes on its transport and how it ends. *)
Inductive session_shape (w : world) (args : gmap string value)
    (gvm : connection) (xml : string)
    : list event -> outcome unit -> Prop :=
| No_attribute e :
    args !! "gmp_username" = None \/ args !! "gmp_password" = None ->
    session_shape w args gvm xml [] (Raised e)
| Auth_failed u p e :
    args !! "gmp_username" = Some u -> truthy u = true ->
    args !! "gmp_password" = Some p ->
    authenticate w gvm u p = Some e ->
    session_shape w args gvm xml [Authenticate u p] (Raised e)
| Send_failed auth e :
    auth_step w args gvm auth ->
    send w gvm xml = Some e ->
    session_shape w args gvm xml (auth ++ [Send xml]) (Raised e)
| Read_failed auth e :
    auth_step w args gvm auth ->
    send w gvm xml = None ->
    read w gvm xml = inl e ->
    session_shape w args gvm xml (auth ++ [Send xml; Read]) (Raised e)
| Completed auth result :
    auth_step w args gvm auth ->
    send w gvm xml = None ->
    read w gvm xml = inr result ->
    session_shape w args gvm xml
      (auth ++ [Send xml; Read; Print result; Close]) (Exited 0).

(** A run ends before the [try] of line 195, or in its handler, or goes
    through the session with a constructed transport. *)
Inductive run_shape (w : world) : Prop :=
| Ended_early :
    Forall is_early (events w) ->
    (forall c, (run w).2 = Exited c -> usage_exit c) ->
    (run w).2 <> Return tt ->
    run_shape w
| Construction_failed args st1 raw st2 args' st3 e attempt :
    preamble w (fresh w) = (st1, Return args) ->
    acquire_xml w args st1 = (st2, Return raw) ->
    ask_password w args st2 = (st3, Return args') ->
    Forall is_early (trace st3) ->
    failed_attempt w args' e attempt ->
    events w = trace st3 ++ attempt ++ [Print (exn_msg e)] ->
    (run w).2 = Exited 1 ->
    run_shape w
| Constructed args st1 raw st2 args' st3 gvm calls :
    preamble w (fresh w) = (st1, Return args) ->
    acquire_xml w args st1 = (st2, Return raw) ->
    ask_password w args st2 = (st3, Return args') ->
    Forall is_early (trace st3) ->
    connect w gvm = None ->
    selects args' gvm ->
    session_shape w args' gvm (strip_newlines raw) calls (run w).2 ->
    events w = trace st3 ++ [Connect gvm] ++ calls ->
    run_shape w.

(** ** Effective options and layers *)

(** The value of an option once the layers are merged (line 159). *)
Definition effective (w : world) (name : string) : option value :=
  match resolve_args w (fresh w) with
  | (_, Return args) => args !! name
  | _ => None
  end.

Definition password_prompt (name : string) : string :=
  "Enter password for " +:+ name +:+ ": ".

(** Lines 189-192, case by case: the namespace after them and the
    prompt they show. *)
Inductive password_step (w : world) (args : gmap string value)
    : gmap string value -> list event -> Prop :=
| No_username u :
    args !! "gmp_username" = Some u -> truthy u = false ->
    password_step w args args []
| Password_configured u p :
    args !! "gmp_username" = Some u -> truthy u = true ->
    args !! "gmp_password" = Some p -> truthy p = true ->
    password_step w args args []
| Password_prompted name p secret :
    args !! "gmp_username" = Some (VStr name) ->
    truthy (VStr name) = true ->
    args !! "gmp_password" = Some p -> truthy p = false ->
    getpass w (password_prompt name) = inr secret ->
    password_step w args (<[ "gmp_password" := VStr secret ]> args)
      [Getpass (password_prompt name)].

(** [keeps_stdin m]: [m] reads nothing from [sys.stdin]. *)
Definition keeps_stdin {A} (m : M A) : Prop :=
  forall st st' o, m st = (st', o) -> stdin st' = stdin st.

Definition is_newline (c : ascii) : bool := Ascii.eqb c LF || Ascii.eqb c CR.



(** Lines 186-223: what follows the acquisition of the payload. *)
Definition main_tail (w : world) (args : gmap string value) (raw : string)
    : M unit :=
  let xml := strip_newlines raw in
  let! args := ask_password w args in
  let! gvm := open_connection w args in
  session w args gvm xml.

Definition reads_no_input (ev : event) : Prop :=
  match ev with
  | InfileRead | Input => False
  | _ => True
  end.

(** An option registered without [default=]: its default is the
    parser-level default of its destination at that moment, or [None]. *)
Definition plain (defaults : gmap string value) (d : string) : action :=
  Action d (default VNone (defaults !! d)) false.

(** The options that are registered on the parent parser without a
    [default=] keyword and are read by the rest of [main]. *)
Definition plain_options : list string :=
  ["loglevel"; "gmp_username"; "gmp_password"; "xml"].

Definition is_subparser (defaults : gmap string value) (sub : parser) : Prop :=
  sub = parser_ssh defaults \/ sub = parser_tls defaults \/
  sub = parser_socket defaults.

(** The [Auth] section as [main] gets hold of it: there is one only if
    a config path was given, the file parsed, and the section exists. *)
Definition file_layer (w : world) : option (gmap string value) :=
  match cl_config w with
  | Some config =>
      if truthy (VStr config) then
        match config_file w (expanduser w config) with
        | FileParsed sections =>
            match sections !! "Auth" with
            | Some items => Some (VStr <$> items)
            | None => None
            end
        | _ => None
        end
      else None
  | None => None
  end.

(** The run got past line 159 with a namespace. *)
Definition parses (w : world) : Prop :=
  match (resolve_args w (fresh w)).2 with
  | Return _ => True
  | _ => False
  end.

Definition shift (pre : list event) (st : state) : state :=
  {| stdin := stdin st; trace := pre ++ trace st |}.

(** [oblivious m]: [m] does not look at the trace; events that were
    there before stay in front of whatever [m] adds. *)
Definition oblivious {A} (m : M A) : Prop :=
  forall pre st, m (shift pre st) = (shift pre (m st).1, (m st).2).

(** [main] from line 106 on, with [defaults] as lines 91-104 left it. *)
Definition main_from (w : world) (defaults : gmap string value) : M unit :=
  let! args := (let! args := parse_args w defaults in
                setup_logging w args ;;;
                resolve_timeout args) in
  let! raw := acquire_xml w args in
  main_tail w args raw.

(** A file from which no [Auth] section can be had: missing or
    unreadable, malformed, or without the section. *)
Definition config_unusable (f : file_state) : Prop :=
  match f with
  | FileAbsent | FileMalformed _ => True
  | FileParsed sections => sections !! "Auth" = None
  end.

(** The text of the exception lines 99-102 raise on such a file. *)
Definition config_error_text (f : file_state) : string :=
  match f with
  | FileMalformed msg => msg
  | _ => "No section: 'Auth'"
  end.

(** ** Example worlds *)

Definition os_error (msg : string) : exn := Exn (OtherError "OSError") msg.

(** A world with one sub-command on the command line, one config file
    on disk whatever the path, a terminal that answers [secret] to the
    password prompt, and a transport that echoes the request. *)
Definition example (config : option string) (file : file_state)
    (kind : string) (options : gmap string value)
    (isatty : bool) (data : string) (secret : string)
    (connect_result send_result : option exn) : world :=
  {| cl_config := config;
     cl_help_or_version := false;
     cl_connection_type := Some kind;
     cl_options := options;
     cl_infile := None;
     expanduser := fun path => path;
     config_file := fun _ => file;
     basicConfig := fun _ => None;
     stdin_isatty := isatty;
     stdin_data := data;
     infile_read_error := None;
     getpass := fun _ => inr secret;
     connect := fun _ => connect_result;
     authenticate := fun _ _ _ => None;
     send := fun _ _ => send_result;
     read := fun _ xml => inr ("<response to='" +:+ xml +:+ "'/>") |}.

Definition gvmd_socket : connection :=
  UnixSocketConnection (VStr "/usr/local/var/run/gvmd.sock")
    (VBool false) (VInt 60).

(** [gvm-cli socket --xml "<get_version/>"] on a terminal. *)
Definition w_get_version : world :=
  example None FileAbsent "socket" {[ "xml" := VStr "<get_version/>" ]}
    true "" "" None None.

(** The same, with a transport whose [send] raises. *)
Definition w_send_error : world :=
  example None FileAbsent "socket" {[ "xml" := VStr "<get_version/>" ]}
    true "" "" None (Some (os_error "Broken pipe")).

(** [gvm-cli tls --hostname scanner --xml "<get_version/>"] against a
    host that refuses the connection. *)
Definition w_refused : world :=
  example None FileAbsent "tls"
    {[ "hostname" := VStr "scanner"; "xml" := VStr "<get_version/>" ]}
    true "" "" (Some (os_error "Connection refused")) None.

Definition scanner_tls : connection :=
  TLSConnection (VStr "scanner") (VInt 9390) VNone VNone VNone
    (VBool false) (VInt 60).

(** [gvm-cli socket --gmp-username admin --xml "<get_tasks/>"], no
    password anywhere, and a user who just presses return at the
    password prompt. *)
Definition w_empty_secret : world :=
  example None FileAbsent "socket"
    {[ "gmp_username" := VStr "admin"; "xml" := VStr "<get_tasks/>" ]}
    true "" "" None None.

(** [gvm-cli tls --hostname scanner --gmp-username admin
    --gmp-password pw --xml "<get_tasks/>"] against a host that refuses
    the connection. *)
Definition w_refused_admin : world :=
  example None FileAbsent "tls"
    {[ "hostname" := VStr "scanner"; "gmp_username" := VStr "admin";
       "gmp_password" := VStr "pw"; "xml" := VStr "<get_tasks/>" ]}
    true "" "" (Some (os_error "Connection refused")) None.

(** [gvm-cli socket < request], the request being [data]. *)
Definition w_piped (data : string) : world :=
  example None FileAbsent "socket" ∅ false data "" None None.

(** [gvm-cli socket --xml ""] with [data] on the standard input. *)
Definition w_empty_flag (data : string) : world :=
  example None FileAbsent "socket" {[ "xml" := VStr "" ]}
    false data "" None None.

Definition newline : string := String LF EmptyString.


(** The world [w] with no [-c] on its command line. *)
Definition without_config (w : world) : world :=
  {| cl_config := None;
     cl_help_or_version := cl_help_or_version w;
     cl_connection_type := cl_connection_type w;
     cl_options := cl_options w;
     cl_infile := cl_infile w;
     expanduser := expanduser w;
     config_file := config_file w;
     basicConfig := basicConfig w;
     stdin_isatty := stdin_isatty w;
     stdin_data := stdin_data w;
     infile_read_error := infile_read_error w;
     getpass := getpass w;
     connect := connect w;
     authenticate := authenticate w;
     send := send w;
     read := read w |}.

(** [gvm-cli -c /root/gvm-tools.conf socket --xml "<get_version/>"]
    with a file the user may not read. *)
Definition w_unreadable : world :=
  example (Some "/root/gvm-tools.conf") FileAbsent "socket"
    {[ "xml" := VStr "<get_version/>" ]} true "" "" None None.



(** ** Notions for the further properties *)

(** The [timeout=] argument of a constructor call. *)
Definition timeout_of (c : connection) : value :=
  match c with
  | UnixSocketConnection _ _ timeout => timeout
  | TLSConnection _ _ _ _ _ _ timeout => timeout
  | SSHConnection _ _ timeout _ _ _ => timeout
  end.

(** The keyword arguments of a constructor call are the attributes of
    [args] that lines 197-209 name; the secure shell gets the empty
    string as password. *)
Definition built_from (args : gmap string value) (c : connection) : Prop :=
  match c with
  | UnixSocketConnection sockpath raw timeout =>
      args !! "sockpath" = Some sockpath /\
      args !! "raw" = Some raw /\
      args !! "timeout" = Some timeout
  | TLSConnection hostname port certfile keyfile cafile raw timeout =>
      args !! "hostname" = Some hostname /\
      args !! "port" = Some port /\
      args !! "certfile" = Some certfile /\
      args !! "keyfile" = Some keyfile /\
      args !! "cafile" = Some cafile /\
      args !! "raw" = Some raw /\
      args !! "timeout" = Some timeout
  | SSHConnection hostname port timeout raw ssh_user ssh_password =>
      args !! "hostname" = Some hostname /\
      args !! "port" = Some port /\
      args !! "timeout" = Some timeout /\
      args !! "raw" = Some raw /\
      args !! "ssh_user" = Some ssh_user /\
      ssh_password = VStr ""
  end.

(** The run got past line 168 with a namespace. *)
Definition prepared (w : world) : Prop :=
  match (preamble w (fresh w)).2 with
  | Return _ => True
  | _ => False
  end.

(** [gvm-cli socket --timeout -1 --xml "<get_version/>"]. *)
Definition w_no_timeout : world :=
  example None FileAbsent "socket"
    {[ "timeout" := VInt (-1); "xml" := VStr "<get_version/>" ]}
    true "" "" None None.



(** The calls [main] makes on the transport class and its object. *)
Inductive call := CConnect | CAuthenticate | CSend | CRead | CClose.

Definition is_call (k : call) (ev : event) : bool :=
  match k, ev with
  | CConnect, Connect _ => true
  | CAuthenticate, Authenticate _ _ => true
  | CSend, Send _ => true
  | CRead, Read => true
  | CClose, Close => true
  | _, _ => false
  end.

(** How often a run makes the call [k]. *)
Definition count_call (k : call) (l : list event) : nat :=
  length (List.filter (is_call k) l).

(** [gvm-cli socket --gmp-username admin --gmp-password pw
    --xml "<get_tasks/>"]. *)
Definition w_admin : world :=
  example None FileAbsent "socket"
    {[ "gmp_username" := VStr "admin"; "gmp_password" := VStr "pw";
       "xml" := VStr "<get_tasks/>" ]}
    true "" "" None None.



(** [gvm-cli socket < request] with a stream whose [read()] raises
    [e]. *)
Definition w_read_error (e : exn) : world :=
  {| cl_config := None;
     cl_help_or_version := false;
     cl_connection_type := Some "socket";
     cl_options := ∅;
     cl_infile := None;
     expanduser := fun path => path;
     config_file := fun _ => FileAbsent;
     basicConfig := fun _ => None;
     stdin_isatty := false;
     stdin_data := "";
     infile_read_error := Some e;
     getpass := fun _ => inr "";
     connect := fun _ => None;
     authenticate := fun _ _ _ => None;
     send := fun _ _ => None;
     read := fun _ _ => inr "" |}.

Definition decode_error : exn :=
  Exn (OtherError "UnicodeDecodeError") "invalid start byte".

(** [gvm-cli socket --log DEBUG --xml "<get_version/>"] in a directory
    where [gvm-cli.log] cannot be written. *)
Definition w_log_denied : world :=
  {| cl_config := None;
     cl_help_or_version := false;
     cl_connection_type := Some "socket";
     cl_options := {[ "loglevel" := VStr "DEBUG";
                      "xml" := VStr "<get_version/>" ]};
     cl_infile := None;
     expanduser := fun path => path;
     config_file := fun _ => FileAbsent;
     basicConfig := fun _ => Some (os_error "Permission denied");
     stdin_isatty := true;
     stdin_data := "";
     infile_read_error := None;
     getpass := fun _ => inr "";
     connect := fun _ => None;
     authenticate := fun _ _ _ => None;
     send := fun _ _ => None;
     read := fun _ _ => inr "" |}.

(** [gvm-cli socket --gmp-username admin --xml "<get_tasks/>"] without
    a terminal to ask the password on. *)
Definition w_no_terminal : world :=
  {| cl_config := None;
     cl_help_or_version := false;
     cl_connection_type := Some "socket";
     cl_options := {[ "gmp_username" := VStr "admin";
                      "xml" := VStr "<get_tasks/>" ]};
     cl_infile := None;
     expanduser := fun path => path;
     config_file := fun _ => FileAbsent;
     basicConfig := fun _ => None;
     stdin_isatty := true;
     stdin_data := "";
     infile_read_error := None;
     getpass := fun _ => inl (Exn EOFError "");
     connect := fun _ => None;
     authenticate := fun _ _ _ => None;
     send := fun _ _ => None;
     read := fun _ _ => inr "" |}.

(** Lines 194-223: what follows the password prompt. *)
Definition connect_and_session (w : world) (args : gmap string value)
    (xml : string) : M unit :=
  let! gvm := open_connection w args in
  session w args gvm xml.

Definition asks_nothing (ev : event) : Prop :=
  match ev with
  | InfileRead | Input | Getpass _ => False
  | _ => True
  end.






(** * Properties *)

(** ** Framing: what a computation adds to the trace, how it may exit *)

Section Framing.
Context {A B : Type} (P : event -> Prop) (E : Z -> Prop).

Lemma emits_ret (a : A) : emits P E (ret a).
Proof.
  intros st st' o [= <- <-]. split; [|discriminate].
  exists []. by rewrite app_nil_r.
Qed.

Lemma emits_raise (e : exn) : emits P E (@raise A e).
Proof.
  intros st st' o [= <- <-]. split; [|discriminate].
  exists []. by rewrite app_nil_r.
Qed.

Lemma emits_sys_exit (c : Z) : E c -> emits P E (@sys_exit A c).
Proof.
  intros Hc st st' o [= <- <-]. split; [|by intros ? [= <-]].
  exists []. by rewrite app_nil_r.
Qed.

Lemma emits_emit (ev : event) : P ev -> emits P E (emit ev).
Proof.
  intros Hev st st' o [= <- <-]. split; [|discriminate].
  exists [ev]. split; [done|]. by constructor.
Qed.

Lemma emits_bind (m : M A) (k : A -> M B) :
  emits P E m -> (forall a, emits P E (k a)) -> emits P E (bind m k).
Proof.
  intros Hm Hk st st' o. unfold bind.
  destruct (m st) as [st1 [a|e|c]] eqn:Em; intros Hrun.
  - destruct (Hm _ _ _ Em) as [(evs1 & Ht1 & H1) _].
    destruct (Hk a _ _ _ Hrun) as [(evs2 & Ht2 & H2) Hc].
    split; [|done]. exists (evs1 ++ evs2). split.
    + rewrite Ht2, Ht1. symmetry. apply app_assoc.
    + by apply Forall_app.
  - injection Hrun as <- <-. destruct (Hm _ _ _ Em) as [? _].
    split; [done|discriminate].
  - injection Hrun as <- <-. destruct (Hm _ _ _ Em) as [? Hc].
    split; [done|]. intros c' [= <-]. by apply Hc.
Qed.

Lemma emits_try_except (body : M A) (handler : exn -> M A) :
  emits P E body -> (forall e, emits P E (handler e)) ->
  emits P E (try_except body handler).
Proof.
  intros Hb Hh st st' o. unfold try_except.
  destruct (body st) as [st1 [a|e|c]] eqn:Eb; intros Hrun.
  - injection Hrun as <- <-. by apply (Hb _ _ _ Eb).
  - destruct (Hb _ _ _ Eb) as [(evs1 & Ht1 & H1) _].
    destruct (Hh e _ _ _ Hrun) as [(evs2 & Ht2 & H2) Hc].
    split; [|done]. exists (evs1 ++ evs2). split.
    + rewrite Ht2, Ht1. symmetry. apply app_assoc.
    + by apply Forall_app.
  - injection Hrun as <- <-. by apply (Hb _ _ _ Eb).
Qed.
End Framing.

Lemma emits_lift_error P E (r : option exn) : emits P E (lift_error r).
Proof. destruct r; [apply emits_raise|apply emits_ret]. Qed.

Lemma emits_lift_result {A} P E (r : exn + A) : emits P E (lift_result r).
Proof. destruct r; [apply emits_raise|apply emits_ret]. Qed.

Lemma emits_getattr P E args name : emits P E (getattr args name).
Proof. unfold getattr. destruct (args !! name); [apply emits_ret|apply emits_raise]. Qed.

Lemma emits_as_str P E v : emits P E (as_str v).
Proof. destruct v; first [apply emits_ret|apply emits_raise]. Qed.

Lemma emits_py_in P E needle v : emits P E (py_in needle v).
Proof. destruct v; first [apply emits_ret|apply emits_raise]. Qed.

Lemma emits_mono {A} (P Q : event -> Prop) (E F : Z -> Prop) (m : M A) :
  (forall ev, P ev -> Q ev) -> (forall c, E c -> F c) ->
  emits P E m -> emits Q F m.
Proof.
  intros HPQ HEF Hm st st' o Hrun.
  destruct (Hm _ _ _ Hrun) as [(evs & Ht & Hevs) Hc]. split.
  - exists evs. split; [done|]. eapply Forall_impl; eauto.
  - intros c Ho. apply HEF, Hc, Ho.
Qed.

Lemma emits_stdin_read P E : emits P E stdin_read.
Proof.
  intros st st' o [= <- <-]. split; [|discriminate].
  exists []. by rewrite app_nil_r.
Qed.

Lemma emits_stdin_line P E : emits P E stdin_line.
Proof.
  intros st st' o Hrun. unfold stdin_line in Hrun.
  destruct (stdin st); injection Hrun as <- <-;
    (split; [|discriminate]); exists []; by rewrite app_nil_r.
Qed.

Create HintDb frame discriminated.
#[global] Hint Resolve emits_ret emits_raise emits_lift_error
  emits_lift_result emits_getattr emits_as_str emits_py_in
  emits_stdin_read emits_stdin_line : frame.

(** Walks through a computation built from binds, handlers and
    branches; leaves the side conditions on events and exit codes. *)
Ltac frame_step :=
  first
    [ solve [auto with frame]
    | apply emits_bind; [|intros ?]
    | apply emits_try_except; [|intros ?]
    | apply emits_emit
    | apply emits_sys_exit
    | match goal with
      | |- emits _ _ (if ?b then _ else _) => destruct b
      | |- emits _ _ (match ?x with _ => _ end) => destruct x
      end ].
Ltac frame := repeat frame_step.

(** ** What each stage adds to the trace *)

Lemma load_config_emits w : emits is_print never (load_config w).
Proof. unfold load_config, config_read, config_items, print. frame; exact I. Qed.

Lemma parse_args_emits w defaults :
  emits is_print usage_exit (parse_args w defaults).
Proof. unfold parse_args. frame; unfold usage_exit; auto. Qed.

Lemma preamble_emits w : emits is_print usage_exit (preamble w).
Proof.
  unfold preamble, resolve_args, setup_logging, resolve_timeout.
  frame.
  - eapply emits_mono; [| |apply load_config_emits]; [auto|intros ? []].
  - apply parse_args_emits.
Qed.

Lemma acquire_xml_emits w args :
  emits is_input_event never (acquire_xml w args).
Proof.
  unfold acquire_xml, flag_or_stream, ask_if_empty, infile_read, input, print.
  frame; exact I.
Qed.

Lemma ask_password_emits w args : emits is_getpass never (ask_password w args).
Proof. unfold ask_password, call_getpass. frame; exact I. Qed.

Lemma build_connection_emits w args :
  emits is_connect never (build_connection w args).
Proof. unfold build_connection, construct. frame; exact I. Qed.

(** ** The transport variant a namespace selects *)

(** What the body of the [try] does: it raises before any constructor
    is called, or calls exactly one constructor, the one [dispatch]
    selects for [args.connection_type], and passes on its result. *)
Lemma build_connection_spec w args st st' o :
  build_connection w args st = (st', o) ->
  stdin st' = stdin st /\
  match o with
  | Return gvm =>
      trace st' = trace st ++ [Connect gvm] /\ connect w gvm = None /\
      selects args gvm
  | Raised e =>
      exists attempt, trace st' = trace st ++ attempt /\
                      failed_attempt w args e attempt
  | Exited _ => False
  end.
Proof.
  unfold build_connection, construct, getattr, py_in, failed_attempt,
    selects, dispatch, lift_error, bind, ret, raise, emit.
  intros Hrun.
  destruct (args !! "connection_type") as [[|t| |]|];
    try (injection Hrun as <- <-; split; [done|]; exists [];
         rewrite app_nil_r; by auto).
  destruct (contains "socket" t) eqn:Hs;
    [|destruct (contains "tls" t) eqn:Hl];
    repeat match type of Hrun with
      | context [args !! ?k] =>
          destruct (args !! k);
          [|injection Hrun as <- <-; split; [done|]; exists [];
            rewrite app_nil_r; by auto]
      | context [connect w ?c] =>
          destruct (connect w c) eqn:?; injection Hrun as <- <-; cbn
      end.
  all: split; [done|].
  all: first [ split; [done|split; [done|]]
             | eexists; split; [done|]; right; eexists;
               split; [done|split; [done|]] ].
  all: exists t; by rewrite Hs, ?Hl.
Qed.

(** ** Anatomy of the session (lines 214-223) *)

Lemma session_spec w args gvm xml st st' o :
  session w args gvm xml st = (st', o) ->
  stdin st' = stdin st /\
  exists evs, trace st' = trace st ++ evs /\
              session_shape w args gvm xml evs o.
Proof.
  unfold session, gvm_authenticate, gvm_send, gvm_read, gvm_close, print,
    getattr, lift_error, lift_result, bind, ret, raise, emit, sys_exit.
  intros Hrun.
  destruct (args !! "gmp_username") as [u|] eqn:Hu; cycle 1.
  { injection Hrun as <- <-. split; [done|]. exists []. rewrite app_nil_r.
    split; [done|]. constructor. by left. }
  destruct (truthy u) eqn:Ht.
  - destruct (args !! "gmp_password") as [p|] eqn:Hp; cycle 1.
    { injection Hrun as <- <-. split; [done|]. exists [].
      rewrite app_nil_r. split; [done|]. constructor. by right. }
    cbn in Hrun.
    destruct (authenticate w gvm u p) as [e|] eqn:Ha.
    { injection Hrun as <- <-. split; [done|]. eexists. split; [done|].
      by eapply Auth_failed. }
    assert (Hauth : auth_step w args gvm [Authenticate u p])
      by by eapply Auth_done.
    cbn in Hrun. destruct (send w gvm xml) as [e|] eqn:Hs.
    { injection Hrun as <- <-. split; [done|].
      exists ([Authenticate u p] ++ [Send xml]). split.
      - cbn. by rewrite <- app_assoc.
      - by apply Send_failed. }
    cbn in Hrun. destruct (read w gvm xml) as [e|result] eqn:Hr;
      injection Hrun as <- <-; (split; [done|]).
    + exists ([Authenticate u p] ++ [Send xml; Read]). split.
      * cbn. by rewrite <- !app_assoc.
      * by apply Read_failed.
    + exists ([Authenticate u p] ++ [Send xml; Read; Print result; Close]).
      split.
      * cbn. by rewrite <- !app_assoc.
      * by apply Completed.
  - assert (Hauth : auth_step w args gvm []) by by eapply Auth_skipped.
    cbn in Hrun. destruct (send w gvm xml) as [e|] eqn:Hs.
    { injection Hrun as <- <-. split; [done|].
      exists ([] ++ [Send xml]). split; [done|]. by apply Send_failed. }
    cbn in Hrun. destruct (read w gvm xml) as [e|result] eqn:Hr;
      injection Hrun as <- <-; (split; [done|]).
    + exists ([] ++ [Send xml; Read]). split.
      * cbn. by rewrite <- !app_assoc.
      * by apply Read_failed.
    + exists ([] ++ [Send xml; Read; Print result; Close]). split.
      * cbn. by rewrite <- !app_assoc.
      * by apply Completed.
Qed.

(** ** Anatomy of a run *)

Lemma is_print_early ev : is_print ev -> is_early ev.
Proof. by destruct ev. Qed.

Lemma is_input_early ev : is_input_event ev -> is_early ev.
Proof. by destruct ev. Qed.

Lemma is_getpass_early ev : is_getpass ev -> is_early ev.
Proof. by destruct ev. Qed.

Lemma early_step {A} (P : event -> Prop) E (m : M A) st st' o :
  emits P E m -> (forall ev, P ev -> is_early ev) ->
  m st = (st', o) -> Forall is_early (trace st) ->
  Forall is_early (trace st').
Proof.
  intros Hm HP Hrun Hst. destruct (Hm _ _ _ Hrun) as [(evs & -> & Hevs) _].
  apply Forall_app. split; [done|]. eapply Forall_impl; eauto.
Qed.

Lemma run_shape_total w : run_shape w.
Proof.
  assert (H0 : Forall is_early (trace (fresh w))) by constructor.
  destruct (preamble w (fresh w)) as [st1 o1] eqn:E1.
  pose proof (early_step _ _ _ _ _ _ (preamble_emits w) is_print_early E1 H0)
    as H1.
  destruct (preamble_emits w _ _ _ E1) as [_ Hx1].
  destruct o1 as [args|e|c]; cycle 1.
  { apply Ended_early; unfold events, run, main, bind; rewrite E1;
      [done|discriminate|discriminate]. }
  { apply Ended_early; unfold events, run, main, bind; rewrite E1;
      [done| |discriminate]. intros c' [= <-]. by apply Hx1. }
  destruct (acquire_xml w args st1) as [st2 o2] eqn:E2.
  pose proof (early_step _ _ _ _ _ _ (acquire_xml_emits w args)
                is_input_early E2 H1) as H2.
  destruct (acquire_xml_emits w args _ _ _ E2) as [_ Hx2].
  destruct o2 as [raw|e|c]; cycle 1.
  { apply Ended_early; unfold events, run, main, bind; rewrite E1, E2;
      [done|discriminate|discriminate]. }
  { by destruct (Hx2 c). }
  destruct (ask_password w args st2) as [st3 o3] eqn:E3.
  pose proof (early_step _ _ _ _ _ _ (ask_password_emits w args)
                is_getpass_early E3 H2) as H3.
  destruct (ask_password_emits w args _ _ _ E3) as [_ Hx3].
  destruct o3 as [args'|e|c]; cycle 1.
  { apply Ended_early; unfold events, run, main, bind; rewrite E1, E2, E3;
      [done|discriminate|discriminate]. }
  { by destruct (Hx3 c). }
  destruct (build_connection w args' st3) as [st4 o4] eqn:E4.
  destruct (build_connection_spec _ _ _ _ _ E4) as [_ Hb].
  destruct o4 as [gvm|e|c]; [| |done].
  - destruct Hb as (Ht4 & Hc & Hsel).
    destruct (session w args' gvm (strip_newlines raw) st4) as [st5 o5] eqn:E5.
    destruct (session_spec _ _ _ _ _ _ _ E5) as (_ & calls & Ht5 & Hs).
    assert (Hrun : run w = (st5, o5)).
    { unfold run, main, bind, open_connection, try_except.
      by rewrite E1, E2, E3, E4. }
    eapply Constructed; eauto; unfold events; rewrite Hrun; [done|].
    cbn. by rewrite Ht5, Ht4, <- app_assoc.
  - destruct Hb as (attempt & Ht4 & Hf).
    assert (Hrun : run w = ({| stdin := stdin st4;
                              trace := trace st4 ++ [Print (exn_msg e)] |},
                            Exited 1)).
    { unfold run, main, bind, open_connection, try_except.
      by rewrite E1, E2, E3, E4. }
    eapply Construction_failed; eauto; unfold events; rewrite Hrun; [|done].
    cbn. by rewrite Ht4, <- app_assoc.
Qed.

(** ** Reading a trace back *)

Ltac split_in H := apply in_app_or in H; destruct H as [H|H].

Lemma early_in l ev : Forall is_early l -> In ev l -> is_early ev.
Proof. intros Hl. by apply List.Forall_forall. Qed.

Lemma auth_step_calls w args gvm auth ev :
  auth_step w args gvm auth -> In ev auth ->
  exists u p, ev = Authenticate u p /\ auth = [ev] /\
              args !! "gmp_username" = Some u /\ truthy u = true /\
              args !! "gmp_password" = Some p /\
              authenticate w gvm u p = None.
Proof.
  intros [u Hu Ht|u p Hu Ht Hp Ha]; [intros []|].
  intros [<-|[]]. by exists u, p.
Qed.

(** The events of a session are calls on the transport and the final
    [print] of the response; no constructor is called any more. *)
Lemma session_shape_no_connect w args gvm xml calls o c :
  session_shape w args gvm xml calls o -> ~ In (Connect c) calls.
Proof.
  intros Hs Hin.
  destruct Hs as [e He|u p e Hu Ht Hp Ha|auth e Hauth|auth e Hauth|auth r Hauth];
    rewrite ?in_app_iff in Hin; cbn in Hin;
    repeat match goal with H : _ \/ _ |- _ => destruct H end;
    try done;
    by match goal with
       | H : In _ auth |- _ =>
           destruct (auth_step_calls _ _ _ _ _ Hauth H) as (? & ? & ? & _)
       end.
Qed.

(** A constructor call that is in the trace and returned: the run went
    through the session with that transport. *)
Lemma connect_returned w gvm :
  In (Connect gvm) (events w) -> connect w gvm = None ->
  exists args st1 raw st2 args' st3 calls,
    preamble w (fresh w) = (st1, Return args) /\
    acquire_xml w args st1 = (st2, Return raw) /\
    ask_password w args st2 = (st3, Return args') /\
    Forall is_early (trace st3) /\
    selects args' gvm /\
    session_shape w args' gvm (strip_newlines raw) calls (run w).2 /\
    events w = trace st3 ++ [Connect gvm] ++ calls.
Proof.
  intros Hin Hok.
  destruct (run_shape_total w)
    as [He _ _|args st1 raw st2 args' st3 e attempt E1 E2 E3 H3 Hf Hev _
       |args st1 raw st2 args' st3 gvm' calls E1 E2 E3 H3 Hc Hsel Hs Hev].
  - by destruct (early_in _ _ He Hin).
  - rewrite Hev in Hin.
    split_in Hin;
      [by destruct (early_in _ _ H3 Hin)|].
    split_in Hin; [|by destruct Hin as [|[]]].
    destruct Hf as [Ha|(c & Ha & Hc & _)]; subst attempt; [done|].
    destruct Hin as [[= ->]|[]]. congruence.
  - assert (gvm' = gvm) as ->.
    { rewrite Hev in Hin.
      split_in Hin;
        [by destruct (early_in _ _ H3 Hin)|].
      destruct Hin as [[= ->]|Hin]; [done|].
      by destruct (session_shape_no_connect _ _ _ _ _ _ _ Hs Hin). }
    by exists args, st1, raw, st2, args', st3, calls.
Qed.

(** A constructor call that is in the trace and raised: the run ended
    in the handler of line 210. *)
Lemma connect_raised w c e :
  In (Connect c) (events w) -> connect w c = Some e ->
  exists args st1 raw st2 args' st3,
    preamble w (fresh w) = (st1, Return args) /\
    acquire_xml w args st1 = (st2, Return raw) /\
    ask_password w args st2 = (st3, Return args') /\
    Forall is_early (trace st3) /\
    selects args' c /\
    events w = trace st3 ++ [Connect c; Print (exn_msg e)] /\
    (run w).2 = Exited 1.
Proof.
  intros Hin Hfail.
  destruct (run_shape_total w)
    as [He _ _|args st1 raw st2 args' st3 e' attempt E1 E2 E3 H3 Hf Hev Ho
       |args st1 raw st2 args' st3 gvm' calls E1 E2 E3 H3 Hc Hsel Hs Hev].
  - by destruct (early_in _ _ He Hin).
  - rewrite Hev in Hin.
    split_in Hin;
      [by destruct (early_in _ _ H3 Hin)|].
    split_in Hin; [|by destruct Hin as [|[]]].
    destruct Hf as [Ha|(c' & Ha & Hc & Hsel)]; subst attempt; [done|].
    destruct Hin as [[= ->]|[]].
    assert (e' = e) as -> by congruence.
    by exists args, st1, raw, st2, args', st3.
  - rewrite Hev in Hin.
    split_in Hin;
      [by destruct (early_in _ _ H3 Hin)|].
    destruct Hin as [[= ->]|Hin]; [congruence|].
    by destruct (session_shape_no_connect _ _ _ _ _ _ _ Hs Hin).
Qed.

Lemma late_in pre gvm calls ev :
  Forall is_early pre -> ~ is_early ev -> ~ is_connect ev ->
  In ev (pre ++ [Connect gvm] ++ calls) -> In ev calls.
Proof.
  intros Hpre He Hc Hin.
  split_in Hin; [exfalso; apply He; by eapply early_in|].
  destruct Hin as [<-|Hin]; [exfalso; by apply Hc|done].
Qed.

(** Membership in the calls of a session, shape by shape. *)
Ltac session_cases Hs :=
  destruct Hs as [se HsE
                 |su sp se HsU HsT HsP HsA
                 |sauth se [su HsU HsT|su sp HsU HsT HsP HsA] HsSend
                 |sauth se [su HsU HsT|su sp HsU HsT HsP HsA] HsSend HsRead
                 |sauth sres [su HsU HsT|su sp HsU HsT HsP HsA] HsSend HsRead];
  cbn [app In] in *.

Lemma session_close w args gvm xml calls o :
  session_shape w args gvm xml calls o ->
  (In Close calls /\ o = Exited 0) \/
  (~ In Close calls /\ exists e, o = Raised e).
Proof.
  intros Hs. session_cases Hs;
    first [ left; split; [tauto|done]
          | right; split; [intros Hin; intuition discriminate|by eexists] ].
Qed.

Lemma session_authenticate w args gvm xml calls o u p :
  session_shape w args gvm xml calls o ->
  In (Authenticate u p) calls ->
  args !! "gmp_username" = Some u /\ truthy u = true /\
  args !! "gmp_password" = Some p /\
  (forall e, authenticate w gvm u p = Some e ->
             o = Raised e /\ calls = [Authenticate u p]).
Proof.
  intros Hs Hin. session_cases Hs;
    repeat match goal with
      | H : _ \/ _ |- _ => destruct H
      | H : False |- _ => destruct H
      | H : _ = Authenticate _ _ |- _ => first [discriminate H|injection H as -> ->]
      end;
    split_and!; try done; intros e' He'; by simplify_eq.
Qed.

Lemma session_authenticates w args gvm xml calls o u :
  session_shape w args gvm xml calls o ->
  args !! "gmp_username" = Some u -> truthy u = true ->
  is_Some (args !! "gmp_password") ->
  exists p, In (Authenticate u p) calls.
Proof.
  intros Hs Hu' Ht' [p' Hp']. session_cases Hs; simplify_eq; eauto;
    try destruct HsE; congruence.
Qed.

Lemma session_send w args gvm xml calls o x :
  session_shape w args gvm xml calls o ->
  In (Send x) calls ->
  x = xml /\
  (forall e, send w gvm xml = Some e -> o = Raised e /\ ~ In Read calls) /\
  (send w gvm xml = None ->
   In Read calls /\
   (forall e, read w gvm xml = inl e ->
              o = Raised e /\ ~ In Close calls)).
Proof.
  intros Hs Hin. session_cases Hs;
    repeat match goal with
      | H : _ \/ _ |- _ => destruct H
      | H : False |- _ => destruct H
      | H : _ = Send _ |- _ => first [discriminate H|injection H as ->]
      end;
    (split; [done|]); (split; [intros e' He'|intros Hnone]);
    simplify_eq; split_and?; auto;
    try (intros e' He'; simplify_eq; split_and?; auto);
    try congruence;
    intros Hr; intuition discriminate.
Qed.

(** ** A first run *)

Example get_version_run :
  events w_get_version =
    [Connect gvmd_socket; Send "<get_version/>"; Read;
     Print "<response to='<get_version/>'/>"; Close] /\
  status w_get_version = 0.
Proof. by vm_compute. Qed.

(** ** Session lifecycle *)




(** ** Construction failure and exit codes *)

(** C3, as the code has it.  When the constructor raises, [main]
    prints the error, calls [sys.exit(1)], and never authenticates,
    sends, reads or closes.  [sys.exit(1)] is called nowhere else: a run
    that ends through it went through the handler of the [try] around
    the construction, whose body raised in a constructor or before
    calling one.  (A process status of 1 is not limited to this path:
    see [status_1_with_constructed_transport].) *)
Theorem construction_failure_exits_1 w :
  (forall c e,
     In (Connect c) (events w) -> connect w c = Some e ->
     In (Print (exn_msg e)) (events w) /\
     (run w).2 = Exited 1 /\
     forall ev, In ev (events w) -> ~ is_session_call ev) /\
  ((run w).2 = Exited 1 ->
   exists pre attempt e,
     events w = pre ++ attempt ++ [Print (exn_msg e)] /\
     Forall is_early pre /\
     (attempt = [] \/
      exists c, attempt = [Connect c] /\ connect w c = Some e)).
Proof.
  split.
  - intros c e Hin Hfail.
    destruct (connect_raised w c e Hin Hfail)
      as (args & st1 & raw & st2 & args' & st3
          & _ & _ & _ & H3 & _ & Hev & Ho).
    split_and!; [|done|].
    + rewrite Hev. apply in_or_app. right. right. by left.
    + intros ev Hev'. rewrite Hev in Hev'. split_in Hev'.
      * pose proof (early_in _ _ H3 Hev'). destruct ev; cbn in *; tauto.
      * destruct Hev' as [<-|[<-|[]]]; cbn; tauto.
  - intros Ho.
    destruct (run_shape_total w)
      as [_ Hx _|args st1 raw st2 args' st3 e attempt _ _ _ H3 Hf Hev _
         |args st1 raw st2 args' st3 gvm' calls _ _ _ _ _ _ Hs _].
    + by destruct (Hx 1 Ho).
    + exists (trace st3), attempt, e. split_and!; [done|done|].
      destruct Hf as [?|(c & ? & ? & _)]; eauto.
    + destruct (session_close _ _ _ _ _ _ Hs) as [[_ Ho']|[_ [e Ho']]];
        congruence.
Qed.

Lemma construction_failure_exits_1_witness :
  In (Connect scanner_tls) (events w_refused) /\
  connect w_refused scanner_tls = Some (os_error "Connection refused") /\
  In (Print "Connection refused") (events w_refused) /\
  (run w_refused).2 = Exited 1 /\
  exists pre attempt e,
    events w_refused = pre ++ attempt ++ [Print (exn_msg e)] /\
    Forall is_early pre /\
    (attempt = [] \/
     exists c, attempt = [Connect c] /\ connect w_refused c = Some e).
Proof.
  assert (Hin : In (Connect scanner_tls) (events w_refused))
    by (vm_compute; auto).
  assert (Hfail : connect w_refused scanner_tls
                  = Some (os_error "Connection refused")) by reflexivity.
  destruct (construction_failure_exits_1 w_refused) as [Hraise Hexit].
  destruct (Hraise _ _ Hin Hfail) as (Hprint & Ho & _).
  split; [exact Hin|]. split; [exact Hfail|]. split; [exact Hprint|].
  split; [exact Ho|]. exact (Hexit Ho).
Defined.

(** C3 as stated fails in its last part: with a transport that is
    constructed and a [send] that raises, nothing is caught and the
    process ends with status 1 all the same. *)
Lemma status_1_with_constructed_transport :
  status w_send_error = 1 /\
  In (Connect gvmd_socket) (events w_send_error) /\
  (forall c, connect w_send_error c = None).
Proof. split_and!; [by vm_compute|vm_compute; auto|done]. Qed.

(** ** Credentials *)

Lemma ask_password_spec w args st st' args' :
  ask_password w args st = (st', Return args') ->
  stdin st' = stdin st /\
  exists evs, trace st' = trace st ++ evs /\ password_step w args args' evs.
Proof.
  unfold ask_password, call_getpass, getattr, as_str, lift_result,
    bind, ret, raise, emit.
  intros Hrun.
  destruct (args !! "gmp_username") as [u|] eqn:Hu; [|done].
  destruct (truthy u) eqn:Ht; cycle 1.
  { injection Hrun as <- <-. split; [done|]. exists [].
    rewrite app_nil_r. split; [done|]. by eapply No_username. }
  destruct (args !! "gmp_password") as [p|] eqn:Hp; [|done].
  destruct (truthy p) eqn:Htp; cbn in Hrun.
  { injection Hrun as <- <-. split; [done|]. exists [].
    rewrite app_nil_r. split; [done|]. by eapply Password_configured. }
  destruct u as [|name| |]; try done. cbn in Hrun.
  fold (password_prompt name) in Hrun.
  destruct (getpass w (password_prompt name)) as [e|secret] eqn:Hg; [done|].
  injection Hrun as <- <-. split; [done|]. eexists. split; [done|].
  by eapply Password_prompted.
Qed.

(** Line 168 only touches [timeout]. *)
Lemma resolve_timeout_spec args st st' args' name :
  resolve_timeout args st = (st', Return args') ->
  name <> "timeout" ->
  args' !! name = args !! name.
Proof.
  unfold resolve_timeout, getattr, bind, ret, raise.
  destruct (args !! "timeout") as [t|]; [|done].
  destruct (decide _); intros [= <- <-] Hname; [|done].
  by rewrite lookup_insert_ne.
Qed.

Lemma preamble_effective w st1 args name :
  preamble w (fresh w) = (st1, Return args) ->
  name <> "timeout" ->
  args !! name = effective w name.
Proof.
  unfold preamble, effective, bind.
  destruct (resolve_args w (fresh w)) as [st0 [args0| |]]; [|done..].
  destruct (setup_logging w args0 st0) as [st [[]| |]]; [|done..].
  apply resolve_timeout_spec.
Qed.

(** C4, as the code has it.  [authenticate] is only called with a
    non-empty resolved username, and it is called with one whenever the
    transport has been constructed.  Its password argument is the
    configured password when that is non-empty, otherwise the answer to
    the password prompt, whatever that answer is. *)
Theorem authenticate_follows_username w :
  (forall u p,
     In (Authenticate u p) (events w) ->
     effective w "gmp_username" = Some u /\ truthy u = true /\
     exists p0,
       effective w "gmp_password" = Some p0 /\
       ((truthy p0 = true /\ p = p0) \/
        (truthy p0 = false /\
         exists name secret,
           u = VStr name /\
           getpass w (password_prompt name) = inr secret /\
           p = VStr secret /\
           In (Getpass (password_prompt name)) (events w)))) /\
  (forall gvm u,
     In (Connect gvm) (events w) -> connect w gvm = None ->
     effective w "gmp_username" = Some u -> truthy u = true ->
     exists p, In (Authenticate u p) (events w)).
Proof.
  split.
  - intros u p Hin.
    destruct (run_shape_total w)
      as [He _ _|args st1 raw st2 args' st3 e attempt _ _ _ H3 Hf Hev _
         |args st1 raw st2 args' st3 gvm' calls E1 _ E3 H3 _ _ Hs Hev].
    + by destruct (early_in _ _ He Hin).
    + rewrite Hev in Hin. split_in Hin; [by destruct (early_in _ _ H3 Hin)|].
      split_in Hin; [|by destruct Hin as [|[]]].
      destruct Hf as [?|(c & ? & _)]; subst attempt; [done|].
      by destruct Hin as [|[]].
    + pose proof Hin as Hcall. rewrite Hev in Hcall.
      apply late_in in Hcall; auto.
      destruct (session_authenticate _ _ _ _ _ _ _ _ Hs Hcall)
        as (Hu & Ht & Hp & _).
      destruct (ask_password_spec _ _ _ _ _ E3) as (_ & evs & Ht3 & Hstep).
      assert (Hname : "gmp_username" <> "timeout") by done.
      assert (Hpass : "gmp_password" <> "timeout") by done.
      rewrite <- (preamble_effective _ _ _ _ E1 Hname).
      rewrite <- (preamble_effective _ _ _ _ E1 Hpass).
      destruct Hstep as [u' Hu' Ht'|u' p' Hu' Ht' Hp' Htp'
                        |name p' secret Hu' Ht' Hp' Htp' Hg].
      * congruence.
      * split_and!; [done|done|]. exists p. split; [done|].
        left. split; congruence.
      * rewrite lookup_insert_ne in Hu by done.
        rewrite lookup_insert_eq in Hp.
        split_and!; [done|done|]. exists p'. split; [done|]. right.
        split; [done|]. exists name, secret.
        split_and!; [congruence|done|congruence|].
        rewrite Hev, Ht3. apply in_or_app. left. apply in_or_app. right.
        by left.
  - intros gvm u Hin Hok Hu Ht.
    destruct (connect_returned w gvm Hin Hok)
      as (args & st1 & raw & st2 & args' & st3 & calls
          & E1 & _ & E3 & H3 & _ & Hs & Hev).
    destruct (ask_password_spec _ _ _ _ _ E3) as (_ & evs & _ & Hstep).
    assert (Hname : "gmp_username" <> "timeout") by done.
    rewrite <- (preamble_effective _ _ _ _ E1 Hname) in Hu.
    assert (Hargs' : args' !! "gmp_username" = Some u /\
                     is_Some (args' !! "gmp_password")).
    { destruct Hstep as [u' Hu' Ht'|u' p' Hu' Ht' Hp' Htp'
                        |name p' secret Hu' Ht' Hp' Htp' Hg].
      - congruence.
      - eauto.
      - rewrite lookup_insert_ne by done. rewrite lookup_insert_eq. eauto. }
    destruct Hargs' as [Hu' Hp'].
    destruct (session_authenticates _ _ _ _ _ _ _ Hs Hu' Ht Hp') as [p Hp].
    exists p. rewrite Hev. apply in_or_app. right. by right.
Qed.

Lemma authenticate_follows_username_witness :
  In (Authenticate (VStr "admin") (VStr "")) (events w_empty_secret) /\
  In (Connect gvmd_socket) (events w_empty_secret) /\
  connect w_empty_secret gvmd_socket = None /\
  effective w_empty_secret "gmp_username" = Some (VStr "admin") /\
  truthy (VStr "admin") = true /\
  (exists p0, effective w_empty_secret "gmp_password" = Some p0) /\
  (exists p, In (Authenticate (VStr "admin") p) (events w_empty_secret)).
Proof.
  assert (Hin : In (Authenticate (VStr "admin") (VStr ""))
                  (events w_empty_secret)) by (vm_compute; auto).
  assert (Hc : In (Connect gvmd_socket) (events w_empty_secret))
    by (vm_compute; auto).
  assert (Hok : connect w_empty_secret gvmd_socket = None) by reflexivity.
  assert (Hu : effective w_empty_secret "gmp_username" = Some (VStr "admin"))
    by (vm_compute; reflexivity).
  destruct (authenticate_follows_username w_empty_secret) as [Honly Hif].
  destruct (Honly _ _ Hin) as (_ & _ & p0 & Hp0 & _).
  split; [exact Hin|]. split; [exact Hc|]. split; [exact Hok|].
  split; [exact Hu|]. split; [reflexivity|]. split; [by exists p0|].
  exact (Hif _ _ Hc Hok Hu eq_refl).
Defined.

(** C4 as stated fails twice over.  The prompt can return the empty
    string, and [authenticate] is then called with an empty password;
    and a non-empty username does not lead to [authenticate] when the
    transport cannot be constructed. *)
Lemma authenticate_with_empty_password :
  (effective w_empty_secret "gmp_username" = Some (VStr "admin") /\
   effective w_empty_secret "gmp_password" = Some (VStr "") /\
   In (Authenticate (VStr "admin") (VStr "")) (events w_empty_secret)) /\
  (effective w_refused_admin "gmp_username" = Some (VStr "admin") /\
   forall u p, ~ In (Authenticate u p) (events w_refused_admin)).
Proof.
  split_and!; try (vm_compute; reflexivity); [vm_compute; auto|].
  intros u p. vm_compute. intuition discriminate.
Qed.

(** ** Preserving the input stream *)

Lemma keeps_ret {A} (a : A) : keeps_stdin (ret a).
Proof. by intros st st' o [= <- <-]. Qed.

Lemma keeps_raise {A} (e : exn) : keeps_stdin (@raise A e).
Proof. by intros st st' o [= <- <-]. Qed.

Lemma keeps_sys_exit {A} (c : Z) : keeps_stdin (@sys_exit A c).
Proof. by intros st st' o [= <- <-]. Qed.

Lemma keeps_emit ev : keeps_stdin (emit ev).
Proof. by intros st st' o [= <- <-]. Qed.

Lemma keeps_bind {A B} (m : M A) (k : A -> M B) :
  keeps_stdin m -> (forall a, keeps_stdin (k a)) -> keeps_stdin (bind m k).
Proof.
  intros Hm Hk st st' o. unfold bind.
  destruct (m st) as [st1 [a|e|c]] eqn:Em; intros Hrun.
  - rewrite (Hk a _ _ _ Hrun). by apply (Hm _ _ _ Em).
  - injection Hrun as <- <-. by apply (Hm _ _ _ Em).
  - injection Hrun as <- <-. by apply (Hm _ _ _ Em).
Qed.

Lemma keeps_try_except {A} (body : M A) (handler : exn -> M A) :
  keeps_stdin body -> (forall e, keeps_stdin (handler e)) ->
  keeps_stdin (try_except body handler).
Proof.
  intros Hb Hh st st' o. unfold try_except.
  destruct (body st) as [st1 [a|e|c]] eqn:Eb; intros Hrun.
  - injection Hrun as <- <-. by apply (Hb _ _ _ Eb).
  - rewrite (Hh e _ _ _ Hrun). by apply (Hb _ _ _ Eb).
  - injection Hrun as <- <-. by apply (Hb _ _ _ Eb).
Qed.

Lemma keeps_lift_error r : keeps_stdin (lift_error r).
Proof. destruct r; [apply keeps_raise|apply keeps_ret]. Qed.

Lemma keeps_getattr args name : keeps_stdin (getattr args name).
Proof. unfold getattr. destruct (args !! name); [apply keeps_ret|apply keeps_raise]. Qed.

Create HintDb keeps discriminated.
#[global] Hint Resolve keeps_ret keeps_raise keeps_sys_exit keeps_emit
  keeps_lift_error keeps_getattr : keeps.

Ltac keeps_step :=
  first
    [ solve [auto with keeps]
    | apply keeps_bind; [|intros ?]
    | apply keeps_try_except; [|intros ?]
    | match goal with
      | |- keeps_stdin (if ?b then _ else _) => destruct b
      | |- keeps_stdin (match ?x with _ => _ end) => destruct x
      end ].
Ltac keeps := repeat keeps_step.

Lemma preamble_keeps_stdin w : keeps_stdin (preamble w).
Proof.
  unfold preamble, resolve_args, setup_logging, resolve_timeout,
    load_config, parse_args, config_read, config_items, print.
  keeps.
Qed.

Lemma preamble_prints w st1 o :
  preamble w (fresh w) = (st1, o) ->
  stdin st1 = stdin_data w /\ Forall is_print (trace st1).
Proof.
  intros E1. split; [by apply (preamble_keeps_stdin w _ _ _ E1)|].
  by destruct (preamble_emits w _ _ _ E1) as [(evs & -> & Hevs) _].
Qed.

(** ** Characters of the payload *)

Lemma remove_char_filter c s :
  list_ascii_of_string (remove_char c s)
  = List.filter (fun a => negb (Ascii.eqb a c)) (list_ascii_of_string s).
Proof.
  induction s as [|a s IH]; [done|]. cbn.
  destruct (Ascii.eqb a c); cbn; by rewrite IH.
Qed.

Lemma strip_newlines_filter s :
  list_ascii_of_string (strip_newlines s)
  = List.filter (fun a => negb (is_newline a)) (list_ascii_of_string s).
Proof.
  unfold strip_newlines. rewrite !remove_char_filter.
  induction (list_ascii_of_string s) as [|a l IH]; [done|]. cbn.
  unfold is_newline.
  destruct (Ascii.eqb a LF) eqn:Hlf; cbn; [done|].
  destruct (Ascii.eqb a CR); cbn; by rewrite IH.
Qed.

Lemma strip_newlines_clean s c :
  In c (list_ascii_of_string (strip_newlines s)) -> c <> LF /\ c <> CR.
Proof.
  rewrite strip_newlines_filter, filter_In. intros [_ Hc].
  unfold is_newline in Hc.
  destruct (Ascii.eqb_spec c LF), (Ascii.eqb_spec c CR); done.
Qed.

Lemma strip_newlines_empty s :
  strip_newlines s = "" <->
  Forall (fun c => c = LF \/ c = CR) (list_ascii_of_string s).
Proof.
  rewrite <- (string_of_list_ascii_of_string (strip_newlines s)).
  rewrite strip_newlines_filter.
  induction (list_ascii_of_string s) as [|a l IH]; cbn.
  { split; [constructor|done]. }
  unfold is_newline at 1.
  destruct (Ascii.eqb_spec a LF) as [->|Hlf]; cbn.
  { rewrite IH. split; [by constructor; auto|by inversion 1]. }
  destruct (Ascii.eqb_spec a CR) as [->|Hcr]; cbn.
  { rewrite IH. split; [by constructor; auto|by inversion 1]. }
  split; [done|]. inversion 1; subst. tauto.
Qed.

(** ** The request payload *)

(** A [send] in the trace: the run went through the acquisition of the
    payload, and what is sent is the acquired text after line 187. *)
Lemma send_acquired w x :
  In (Send x) (events w) ->
  exists args st1 raw st2,
    preamble w (fresh w) = (st1, Return args) /\
    acquire_xml w args st1 = (st2, Return raw) /\
    (forall ev, In ev (trace st2) -> In ev (events w)) /\
    x = strip_newlines raw.
Proof.
  intros Hin.
  destruct (run_shape_total w)
    as [He _ _|args st1 raw st2 args' st3 e attempt _ _ _ H3 Hf Hev _
       |args st1 raw st2 args' st3 gvm' calls E1 E2 E3 H3 _ _ Hs Hev].
  - by destruct (early_in _ _ He Hin).
  - rewrite Hev in Hin. split_in Hin; [by destruct (early_in _ _ H3 Hin)|].
    split_in Hin; [|by destruct Hin as [|[]]].
    destruct Hf as [?|(c & ? & _)]; subst attempt; [done|].
    by destruct Hin as [|[]].
  - exists args, st1, raw, st2. split_and!; [done|done| |].
    + intros ev Hev2. rewrite Hev.
      destruct (ask_password_emits w args _ _ _ E3) as [(evs & -> & _) _].
      apply in_or_app. left. apply in_or_app. by left.
    + rewrite Hev in Hin. apply late_in in Hin; auto.
      by destruct (session_send _ _ _ _ _ _ _ Hs Hin) as [-> _].
Qed.



(** [input()] appends one event and returns the first line of what is
    left on the standard input. *)
Lemma input_spec st st' o :
  input st = (st', o) ->
  trace st' = trace st ++ [Input] /\
  (forall line, o = Return line -> line = (split_line (stdin st)).1).
Proof.
  unfold input, stdin_line, bind, emit. cbn.
  destruct (stdin st); intros [= <- <-]; (split; [done|]);
    intros line [= <-]; done.
Qed.

(** C6.  Every payload handed to [send] is the acquired text without
    its newline and carriage-return characters, whatever the source of
    the text: it contains none of them, and nothing else was removed. *)
Theorem sent_payload_is_single_line w x :
  In (Send x) (events w) ->
  (exists args st1 raw st2,
     preamble w (fresh w) = (st1, Return args) /\
     acquire_xml w args st1 = (st2, Return raw) /\
     x = strip_newlines raw /\
     list_ascii_of_string x
     = List.filter (fun c => negb (is_newline c)) (list_ascii_of_string raw)) /\
  ~ In LF (list_ascii_of_string x) /\
  ~ In CR (list_ascii_of_string x).
Proof.
  intros Hin.
  destruct (send_acquired w x Hin) as (args & st1 & raw & st2 & E1 & E2 & _ & ->).
  split_and!.
  - exists args, st1, raw, st2. split_and!; try done.
    apply strip_newlines_filter.
  - intros Hc. by destruct (strip_newlines_clean _ _ Hc).
  - intros Hc. by destruct (strip_newlines_clean _ _ Hc).
Qed.

Lemma sent_payload_is_single_line_witness :
  In (Send "<get_tasks/>") (events (w_piped ("<get_tasks/>" +:+ newline))) /\
  ~ In LF (list_ascii_of_string "<get_tasks/>") /\
  ~ In CR (list_ascii_of_string "<get_tasks/>").
Proof.
  assert (Hin : In (Send "<get_tasks/>")
                  (events (w_piped ("<get_tasks/>" +:+ newline))))
    by (vm_compute; auto).
  split; [exact Hin|].
  exact (proj2 (sent_payload_is_single_line _ _ Hin)).
Defined.

(** C7, as the code has it.  The payload handed to [send] is the
    acquired text without its newlines and carriage returns; it is empty
    exactly when the acquired text has no other character.  When the
    flag and the stream yield the empty string, a line is read by
    [input()] before anything is sent. *)
Theorem sent_payload_empty_iff w x :
  In (Send x) (events w) ->
  exists args st1 raw st2,
    preamble w (fresh w) = (st1, Return args) /\
    acquire_xml w args st1 = (st2, Return raw) /\
    x = strip_newlines raw /\
    (x = "" <->
     Forall (fun c => c = LF \/ c = CR) (list_ascii_of_string raw)) /\
    (forall st', flag_or_stream w args st1 = (st', Return "") ->
                 In Input (events w)).
Proof.
  intros Hin.
  destruct (send_acquired w x Hin)
    as (args & st1 & raw & st2 & E1 & E2 & Hsub & ->).
  exists args, st1, raw, st2. split_and!; try done.
  - apply strip_newlines_empty.
  - intros st' Ef. apply Hsub.
    unfold acquire_xml, bind in E2. rewrite Ef in E2. cbn in E2.
    destruct (input_spec _ _ _ E2) as [-> _].
    apply in_or_app. right. by left.
Qed.

Lemma sent_payload_empty_iff_witness :
  In (Send "") (events (w_piped newline)) /\
  exists args st1 raw st2,
    preamble (w_piped newline) (fresh (w_piped newline))
    = (st1, Return args) /\
    acquire_xml (w_piped newline) args st1 = (st2, Return raw) /\
    "" = strip_newlines raw.
Proof.
  assert (Hin : In (Send "") (events (w_piped newline)))
    by (vm_compute; auto).
  split; [exact Hin|].
  destruct (sent_payload_empty_iff _ _ Hin)
    as (args & st1 & raw & st2 & E1 & E2 & Hx & _).
  exists args, st1, raw, st2.
  split; [exact E1|]. split; [exact E2|exact Hx].
Defined.

(** C7 as stated fails: a stream that holds a single newline is not
    empty, so no line is asked for, and the newline is then removed:
    [send] receives the empty string. *)
Lemma empty_payload_sent :
  events (w_piped newline)
  = [InfileRead; Connect gvmd_socket; Send ""; Read;
     Print "<response to=''/>"; Close].
Proof. by vm_compute. Qed.

Lemma main_tail_emits w args raw :
  emits reads_no_input (fun _ => True) (main_tail w args raw).
Proof.
  unfold main_tail, ask_password, call_getpass, open_connection,
    build_connection, construct, session, gvm_authenticate, gvm_send,
    gvm_read, gvm_close, print.
  frame; exact I.
Qed.

Lemma main_unfold w :
  main w = let! args := preamble w in
           let! raw := acquire_xml w args in
           main_tail w args raw.
Proof. reflexivity. Qed.

(** C10.  With the empty string as value of the [--xml] option, the
    acquisition is the interactive read and nothing else: the input
    stream is not read to its end, whatever it holds, and what is sent
    is the line [input()] returns (after line 187). *)
Theorem empty_flag_reads_a_line w :
  effective w "xml" = Some (VStr "") ->
  (forall st1 args,
     preamble w (fresh w) = (st1, Return args) ->
     acquire_xml w args st1 = input st1) /\
  ~ In InfileRead (events w) /\
  (forall x, In (Send x) (events w) ->
     In Input (events w) /\
     x = strip_newlines (split_line (stdin_data w)).1).
Proof.
  intros Hxml.
  assert (Hacq : forall st1 args,
            preamble w (fresh w) = (st1, Return args) ->
            acquire_xml w args st1 = input st1).
  { intros st1 args E1.
    assert (Hx : args !! "xml" = Some (VStr ""))
      by (by rewrite (preamble_effective _ _ _ _ E1)).
    unfold acquire_xml, flag_or_stream, getattr, bind. by rewrite Hx. }
  split; [done|]. split.
  - unfold events, run. rewrite main_unfold. unfold bind.
    destruct (preamble w (fresh w)) as [st1 o1] eqn:E1.
    destruct (preamble_prints _ _ _ E1) as [_ Hp].
    assert (Hst1 : ~ In InfileRead (trace st1)).
    { intros Hin. by apply (proj1 (List.Forall_forall _ _) Hp) in Hin. }
    destruct o1 as [args|e|c]; [|done..].
    rewrite (Hacq _ _ eq_refl).
    destruct (input st1) as [st2 o2] eqn:E2.
    destruct (input_spec _ _ _ E2) as [Ht2 _].
    assert (Hst2 : ~ In InfileRead (trace st2)).
    { rewrite Ht2. intros Hin. split_in Hin; [done|].
      by destruct Hin as [|[]]. }
    destruct o2 as [raw|e|c]; [|done..].
    destruct (main_tail w args raw st2) as [st3 o3] eqn:E3.
    destruct (main_tail_emits _ _ _ _ _ _ E3) as [(evs & Ht3 & Hevs) _].
    cbn. rewrite Ht3. intros Hin. split_in Hin; [done|].
    by apply (proj1 (List.Forall_forall _ _) Hevs) in Hin.
  - intros x Hin.
    destruct (send_acquired w x Hin)
      as (args & st1 & raw & st2 & E1 & E2 & Hsub & ->).
    rewrite (Hacq _ _ E1) in E2.
    destruct (input_spec _ _ _ E2) as [Ht2 Hline].
    destruct (preamble_prints _ _ _ E1) as [Hstdin _].
    split.
    + apply Hsub. rewrite Ht2. apply in_or_app. right. by left.
    + by rewrite (Hline raw eq_refl), Hstdin.
Qed.

Lemma empty_flag_reads_a_line_witness :
  effective (w_empty_flag ("<get_tasks/>" +:+ newline +:+ "<get_users/>"))
    "xml" = Some (VStr "") /\
  events (w_empty_flag ("<get_tasks/>" +:+ newline +:+ "<get_users/>"))
  = [Input; Connect gvmd_socket; Send "<get_tasks/>"; Read;
     Print "<response to='<get_tasks/>'/>"; Close] /\
  ~ In InfileRead
      (events (w_empty_flag ("<get_tasks/>" +:+ newline +:+ "<get_users/>"))).
Proof.
  assert (Hxml : effective
                   (w_empty_flag ("<get_tasks/>" +:+ newline +:+ "<get_users/>"))
                   "xml" = Some (VStr "")) by (vm_compute; reflexivity).
  split; [exact Hxml|]. split; [vm_compute; reflexivity|].
  exact (proj1 (proj2 (empty_flag_reads_a_line _ Hxml))).
Defined.

(** ** The parsers, in closed form *)

Lemma parent_parser_eq defaults :
  parent_parser defaults =
  {| actions := [plain defaults "config"; Action "timeout" (VInt 60) false;
                 plain defaults "loglevel"; plain defaults "gmp_username";
                 plain defaults "gmp_password"; plain defaults "xml";
                 Action "raw" (VBool false) false];
     parser_defaults := defaults |}.
Proof.
  unfold parent_parser, add_argument, set_defaults, ArgumentParser, plain.
  cbn [actions parser_defaults fmap list_fmap app dest default_ required].
  rewrite (right_id_L ∅ (∪)), lookup_empty.
  by destruct (defaults !! "config").
Qed.

Lemma parser_ssh_eq defaults :
  parser_ssh defaults =
  {| actions := actions (parent_parser defaults) ++
                [Action "hostname" (default VNone (defaults !! "hostname")) true;
                 Action "port" (VInt 22) false;
                 Action "ssh_user" (VStr "gmp") false];
     parser_defaults := defaults |}.
Proof.
  unfold parser_ssh, add_parser, add_argument. by rewrite parent_parser_eq.
Qed.

Lemma parser_tls_eq defaults :
  parser_tls defaults =
  {| actions := actions (parent_parser defaults) ++
                [Action "hostname" (default VNone (defaults !! "hostname")) true;
                 Action "port" (VInt 9390) false;
                 Action "certfile" VNone false;
                 Action "keyfile" VNone false;
                 Action "cafile" VNone false];
     parser_defaults := defaults |}.
Proof.
  unfold parser_tls, add_parser, add_argument. by rewrite parent_parser_eq.
Qed.

Lemma parser_socket_eq defaults :
  parser_socket defaults =
  {| actions := actions (parent_parser defaults) ++
                [Action "sockpath" (VStr "/usr/local/var/run/gvmd.sock") false];
     parser_defaults := defaults |}.
Proof.
  unfold parser_socket, add_parser, add_argument. by rewrite parent_parser_eq.
Qed.

(** The sub-parser a token selects: the three names, by equality. *)
Lemma name_parser_map_Some defaults name sub :
  name_parser_map (subparsers defaults) name = Some sub ->
  (name = "ssh" /\ sub = parser_ssh defaults) \/
  (name = "tls" /\ sub = parser_tls defaults) \/
  (name = "socket" /\ sub = parser_socket defaults).
Proof.
  unfold subparsers, name_parser_map.
  repeat (destruct (decide _) as [ <- | ? ]; [intros [= <-]; auto|]).
  done.
Qed.

Ltac subparser_cases H :=
  destruct H as [ -> | [ -> | -> ] ];
  rewrite ?parser_ssh_eq, ?parser_tls_eq, ?parser_socket_eq, parent_parser_eq;
  unfold action_defaults, plain;
  cbn [actions parser_defaults fmap list_fmap app dest default_ required
       list_to_map foldr fst snd uncurry].


Lemma subparser_plain defaults sub k :
  is_subparser defaults sub -> In k plain_options ->
  action_defaults sub !! k = Some (default VNone (defaults !! k)).
Proof.
  intros Hsub Hk. cbn in Hk.
  destruct Hk as [<-|[<-|[<-|[<-|[]]]]]; subparser_cases Hsub;
    by simplify_map_eq.
Qed.



(** ** Layers of configuration *)

(** [defaults] after lines 91-104: the section if there is one, the
    built-in dict otherwise. *)
Lemma load_config_defaults w st :
  (load_config w st).2 = Return (default builtin_defaults (file_layer w)).
Proof.
  unfold load_config, file_layer, config_read, config_items, try_except,
    print, bind, ret, raise, emit.
  destruct (cl_config w) as [config|]; [|done].
  destruct (truthy (VStr config)); [|done].
  destruct (config_file w (expanduser w config)) as [|msg|sections]; try done.
  cbn. by destruct (sections !! "Auth").
Qed.

(** Line 159 does not depend on the state, and leaves it as it is. *)
Lemma parse_args_pure w defaults st :
  parse_args w defaults st = (st, (parse_args w defaults (fresh w)).2).
Proof.
  unfold parse_args, sys_exit, ret.
  destruct (cl_help_or_version w); [done|].
  destruct (cl_connection_type w) as [name|]; [|done].
  destruct (name_parser_map _ name) as [sub|]; [|done].
  by destruct (parse_known_args sub (cl_options w)).
Qed.

Lemma resolve_args_outcome w :
  (resolve_args w (fresh w)).2
  = (parse_args w (default builtin_defaults (file_layer w)) (fresh w)).2.
Proof.
  unfold resolve_args, bind.
  pose proof (load_config_defaults w (fresh w)) as Hd.
  destruct (load_config w (fresh w)) as [st0 o]. cbn in Hd. subst o.
  by rewrite parse_args_pure.
Qed.

(** A namespace that came out of line 159, taken apart. *)
Lemma parsed_namespace w st args :
  resolve_args w (fresh w) = (st, Return args) ->
  exists name sub,
    cl_connection_type w = Some name /\
    name_parser_map
      (subparsers (default builtin_defaults (file_layer w))) name = Some sub /\
    is_subparser (default builtin_defaults (file_layer w)) sub /\
    map_Forall (fun k _ => k ∈ dest <$> actions sub) (cl_options w) /\
    args = cl_options w ∪ action_defaults sub ∪ parser_defaults sub
           ∪ {[ "connection_type" := VStr name ]}.
Proof.
  intros Hrun. pose proof (resolve_args_outcome w) as Ho.
  rewrite Hrun in Ho. cbn in Ho. revert Ho.
  unfold parse_args, sys_exit, ret.
  destruct (cl_help_or_version w); [done|].
  destruct (cl_connection_type w) as [name|]; [|done].
  destruct (name_parser_map _ name) as [sub|] eqn:Hsub; [|done].
  unfold parse_known_args.
  destruct (decide _) as [Hknown|]; [|done].
  destruct (decide _); [|done].
  cbn. intros [= ->]. exists name, sub. split_and!; try done.
  destruct (name_parser_map_Some _ _ _ Hsub) as [[_ ->]|[[_ ->]|[_ ->]]];
    unfold is_subparser; auto.
Qed.

Lemma effective_parsed w st args k :
  resolve_args w (fresh w) = (st, Return args) ->
  effective w k = args !! k.
Proof. unfold effective. by intros ->. Qed.

Lemma parses_inv w :
  parses w -> exists st args, resolve_args w (fresh w) = (st, Return args).
Proof.
  unfold parses. destruct (resolve_args w (fresh w)) as [st [args| |]];
    [eauto|done..].
Qed.

(** An option without a parser default that the command line leaves
    unset takes the value [defaults] has for it, [None] if it has none. *)
Lemma effective_plain w k :
  parses w -> cl_options w !! k = None -> In k plain_options ->
  effective w k
  = Some (default VNone (default builtin_defaults (file_layer w) !! k)).
Proof.
  intros Hp Hnone Hk. destruct (parses_inv w Hp) as (st & args & Hrun).
  rewrite (effective_parsed _ _ _ _ Hrun).
  destruct (parsed_namespace _ _ _ Hrun)
    as (name & sub & _ & _ & Hsub & _ & ->).
  apply lookup_union_Some_l, lookup_union_Some_l.
  rewrite lookup_union_r by done.
  exact (subparser_plain _ _ _ Hsub Hk).
Qed.




(** ** Independence of what is already on the trace *)

Lemma oblivious_ret {A} (a : A) : oblivious (ret a).
Proof. done. Qed.

Lemma oblivious_raise {A} (e : exn) : oblivious (@raise A e).
Proof. done. Qed.

Lemma oblivious_sys_exit {A} (c : Z) : oblivious (@sys_exit A c).
Proof. done. Qed.

Lemma oblivious_emit ev : oblivious (emit ev).
Proof.
  intros pre st. unfold emit, shift. cbn. by rewrite app_assoc.
Qed.

Lemma oblivious_bind {A B} (m : M A) (k : A -> M B) :
  oblivious m -> (forall a, oblivious (k a)) -> oblivious (bind m k).
Proof.
  intros Hm Hk pre st. unfold bind. rewrite Hm.
  destruct (m st) as [st1 [a|e|c]]; cbn; try reflexivity. apply Hk.
Qed.

Lemma oblivious_try_except {A} (body : M A) (handler : exn -> M A) :
  oblivious body -> (forall e, oblivious (handler e)) ->
  oblivious (try_except body handler).
Proof.
  intros Hb Hh pre st. unfold try_except. rewrite Hb.
  destruct (body st) as [st1 [a|e|c]]; cbn; try reflexivity. apply Hh.
Qed.

Lemma oblivious_lift_error r : oblivious (lift_error r).
Proof. by destruct r. Qed.

Lemma oblivious_lift_result {A} (r : exn + A) : oblivious (lift_result r).
Proof. by destruct r. Qed.

Lemma oblivious_getattr args name : oblivious (getattr args name).
Proof. unfold getattr. by destruct (args !! name). Qed.

Lemma oblivious_as_str v : oblivious (as_str v).
Proof. by destruct v. Qed.

Lemma oblivious_py_in needle v : oblivious (py_in needle v).
Proof. by destruct v. Qed.

Lemma oblivious_stdin_read : oblivious stdin_read.
Proof. done. Qed.

Lemma oblivious_stdin_line : oblivious stdin_line.
Proof. intros pre [[|a s] t]; reflexivity. Qed.

Create HintDb oblivious discriminated.
#[global] Hint Resolve oblivious_ret oblivious_raise oblivious_sys_exit
  oblivious_emit oblivious_lift_error oblivious_lift_result
  oblivious_getattr oblivious_as_str oblivious_py_in
  oblivious_stdin_read oblivious_stdin_line : oblivious.

Ltac oblivious_step :=
  first
    [ solve [auto with oblivious]
    | apply oblivious_bind; [|intros ?]
    | apply oblivious_try_except; [|intros ?]
    | match goal with
      | |- oblivious (if ?b then _ else _) => destruct b
      | |- oblivious (match ?x with _ => _ end) => destruct x
      end ].
Ltac oblivious := repeat oblivious_step.

Lemma main_split w st : main w st = bind (load_config w) (main_from w) st.
Proof.
  unfold main, preamble, resolve_args, main_from, bind.
  by destruct (load_config w st) as [st0 [defaults|e|c]].
Qed.

Lemma main_from_oblivious w defaults : oblivious (main_from w defaults).
Proof.
  unfold main_from, parse_args, setup_logging, resolve_timeout, acquire_xml,
    flag_or_stream, ask_if_empty, infile_read, input, main_tail,
    ask_password, call_getpass, open_connection, build_connection,
    construct, session, gvm_authenticate, gvm_send, gvm_read, gvm_close,
    print.
  oblivious.
Qed.

(** ** Errors of the config file *)

Lemma load_config_unusable w path st :
  cl_config w = Some path -> path <> "" ->
  config_unusable (config_file w (expanduser w path)) ->
  load_config w st
  = ({| stdin := stdin st;
        trace := trace st ++
                 [Print (config_error_text
                           (config_file w (expanduser w path)))] |},
     Return builtin_defaults) /\
  file_layer w = None.
Proof.
  intros Hc Hpath Hbad.
  unfold load_config, file_layer, config_read, config_items, try_except,
    print, bind, ret, raise, emit. rewrite Hc.
  assert (Ht : truthy (VStr path) = true).
  { cbn. by destruct (String.eqb_spec path ""). }
  rewrite Ht.
  destruct (config_file w (expanduser w path)) as [|msg|sections];
    cbn in *; [done|done|]. by rewrite Hbad.
Qed.

Lemma load_config_without_config w st :
  load_config (without_config w) st = (st, Return builtin_defaults) /\
  file_layer (without_config w) = None.
Proof. done. Qed.

Lemma main_from_without_config w defaults :
  main_from (without_config w) defaults = main_from w defaults.
Proof. reflexivity. Qed.

(** C8.  When a config path is given and no [Auth] section can be had
    from the file, the error is printed and the run goes on exactly as
    the same command line without [-c] would: same events after the
    message, same outcome, same effective options; without credentials
    on the command line, username and password are the built-in empty
    strings. *)
Theorem config_error_is_not_fatal w path :
  cl_config w = Some path -> path <> "" ->
  config_unusable (config_file w (expanduser w path)) ->
  events w
  = Print (config_error_text (config_file w (expanduser w path)))
    :: events (without_config w) /\
  (run w).2 = (run (without_config w)).2 /\
  (forall k, effective w k = effective (without_config w) k) /\
  (parses w -> cl_options w !! "gmp_username" = None ->
   effective w "gmp_username" = Some (VStr "")) /\
  (parses w -> cl_options w !! "gmp_password" = None ->
   effective w "gmp_password" = Some (VStr "")).
Proof.
  intros Hc Hpath Hbad.
  destruct (load_config_unusable w path (fresh w) Hc Hpath Hbad)
    as [Hload Hlayer].
  destruct (load_config_without_config w (fresh w)) as [Hload' Hlayer'].
  assert (Hrun : run w
                 = (shift [Print (config_error_text
                                    (config_file w (expanduser w path)))]
                      (run (without_config w)).1,
                    (run (without_config w)).2)).
  { unfold run. rewrite !main_split. unfold bind at 1 3.
    rewrite Hload. change (fresh (without_config w)) with (fresh w).
    rewrite Hload'. rewrite main_from_without_config.
    apply (main_from_oblivious w builtin_defaults [_] (fresh w)). }
  split_and!.
  - unfold events. by rewrite Hrun.
  - by rewrite Hrun.
  - intros k. unfold effective.
    pose proof (resolve_args_outcome w) as Ho.
    pose proof (resolve_args_outcome (without_config w)) as Ho'.
    rewrite Hlayer in Ho. rewrite Hlayer' in Ho'.
    change (parse_args (without_config w) (default builtin_defaults None)
              (fresh (without_config w)))
      with (parse_args w (default builtin_defaults None) (fresh w)) in Ho'.
    destruct (resolve_args w (fresh w)) as [st o].
    destruct (resolve_args (without_config w) (fresh (without_config w)))
      as [st' o']. cbn in Ho, Ho'. by rewrite Ho, Ho'.
  - intros Hp Hnone.
    rewrite (effective_plain w "gmp_username" Hp Hnone), Hlayer;
      [done|cbn; auto].
  - intros Hp Hnone.
    rewrite (effective_plain w "gmp_password" Hp Hnone), Hlayer;
      [done|cbn; auto].
Qed.

Lemma config_error_is_not_fatal_witness :
  cl_config w_unreadable = Some "/root/gvm-tools.conf" /\
  config_unusable
    (config_file w_unreadable (expanduser w_unreadable "/root/gvm-tools.conf")) /\
  events w_unreadable
  = Print "No section: 'Auth'" :: events (without_config w_unreadable) /\
  (run w_unreadable).2 = Exited 0 /\
  effective w_unreadable "gmp_username" = Some (VStr "") /\
  effective w_unreadable "gmp_password" = Some (VStr "").
Proof.
  assert (Hc : cl_config w_unreadable = Some "/root/gvm-tools.conf")
    by reflexivity.
  assert (Hpath : "/root/gvm-tools.conf" <> "") by discriminate.
  assert (Hbad : config_unusable
                   (config_file w_unreadable
                      (expanduser w_unreadable "/root/gvm-tools.conf")))
    by exact I.
  assert (Hp : parses w_unreadable) by (vm_compute; exact I).
  destruct (config_error_is_not_fatal w_unreadable _ Hc Hpath Hbad)
    as (Hev & Ho & _ & Hu & Hpw).
  split; [exact Hc|]. split; [exact Hbad|]. split; [exact Hev|].
  split; [vm_compute; reflexivity|].
  split; [apply (Hu Hp)|apply (Hpw Hp)]; vm_compute; reflexivity.
Defined.

(** ** Dispatch on the connection kind *)

Lemma password_step_other w args args' evs k :
  password_step w args args' evs -> k <> "gmp_password" ->
  args' !! k = args !! k.
Proof.
  intros [u Hu Ht|u p Hu Ht Hp Htp|name p secret Hu Ht Hp Htp Hg] Hk;
    [done|done|]. by rewrite lookup_insert_ne.
Qed.







(** * Further properties of [main] *)

(** ** The arguments of the constructors *)

Lemma build_connection_args w args st st' o :
  build_connection w args st = (st', o) ->
  exists evs, trace st' = trace st ++ evs /\
              forall c, In (Connect c) evs -> built_from args c.
Proof.
  unfold build_connection, construct, getattr, py_in, lift_error,
    bind, ret, raise, emit.
  intros Hrun.
  assert (Hnone : forall l : list event,
            l = l ++ [] /\ forall c, In (Connect c) [] -> built_from args c)
    by (intros l; by rewrite app_nil_r).
  destruct (args !! "connection_type") as [[|t| |]|];
    try (injection Hrun as <- <-; exists []; by apply Hnone).
  destruct (contains "socket" t); [|destruct (contains "tls" t)];
    repeat match type of Hrun with
      | context [args !! ?k] =>
          destruct (args !! k) eqn:?;
          [|injection Hrun as <- <-; exists []; by apply Hnone]
      | context [connect w ?c] =>
          destruct (connect w c) eqn:?; injection Hrun as <- <-; cbn
      end.
  all: eexists; split; [done|].
  all: intros c [[= <-]|[]]; cbn; by split_and!.
Qed.

(** A constructor call in the trace was made from the namespace that
    lines 189-192 left. *)
Lemma connect_built w c :
  In (Connect c) (events w) ->
  exists args st1 raw st2 args' st3,
    preamble w (fresh w) = (st1, Return args) /\
    acquire_xml w args st1 = (st2, Return raw) /\
    ask_password w args st2 = (st3, Return args') /\
    built_from args' c.
Proof.
  unfold events, run. rewrite main_unfold. unfold bind. intros Hin.
  assert (H0 : Forall is_early (trace (fresh w))) by constructor.
  destruct (preamble w (fresh w)) as [st1 o1] eqn:E1.
  pose proof (early_step _ _ _ _ _ _ (preamble_emits w) is_print_early E1 H0)
    as H1.
  destruct o1 as [args|e|c1]; cbn in Hin;
    [|by destruct (early_in _ _ H1 Hin)..].
  destruct (acquire_xml w args st1) as [st2 o2] eqn:E2.
  pose proof (early_step _ _ _ _ _ _ (acquire_xml_emits w args)
                is_input_early E2 H1) as H2.
  destruct o2 as [raw|e|c2]; cbn in Hin;
    [|by destruct (early_in _ _ H2 Hin)..].
  unfold main_tail, bind in Hin.
  destruct (ask_password w args st2) as [st3 o3] eqn:E3.
  pose proof (early_step _ _ _ _ _ _ (ask_password_emits w args)
                is_getpass_early E3 H2) as H3.
  destruct o3 as [args'|e|c3]; cbn in Hin;
    [|by destruct (early_in _ _ H3 Hin)..].
  unfold open_connection, try_except in Hin.
  destruct (build_connection w args' st3) as [st4 o4] eqn:E4.
  destruct (build_connection_args _ _ _ _ _ E4) as (evs & Ht4 & Hbuilt).
  assert (Hst4 : In (Connect c) (trace st4) -> built_from args' c).
  { rewrite Ht4. intros Hc. split_in Hc; [|by apply Hbuilt].
    by destruct (early_in _ _ H3 Hc). }
  exists args, st1, raw, st2, args', st3. split_and!; try done.
  destruct o4 as [gvm|e|c4]; cbn in Hin.
  - destruct (session w args' gvm (strip_newlines raw) st4)
      as [st5 o5] eqn:E5.
    destruct (session_spec _ _ _ _ _ _ _ E5) as (_ & calls & Ht5 & Hs).
    cbn in Hin. rewrite Ht5 in Hin. split_in Hin; [by apply Hst4|].
    by destruct (session_shape_no_connect _ _ _ _ _ _ _ Hs Hin).
  - unfold print, bind, emit, sys_exit in Hin. cbn in Hin.
    split_in Hin; [by apply Hst4|]. by destruct Hin as [|[]].
  - by apply Hst4.
Qed.

(** Lines 166-168 on the way from the parser to the constructor. *)
Lemma preamble_timeout w st1 args :
  preamble w (fresh w) = (st1, Return args) ->
  exists t, effective w "timeout" = Some t /\
            args !! "timeout"
            = Some (if decide (t = VInt (-1)) then VNone else t).
Proof.
  unfold preamble, effective, bind.
  destruct (resolve_args w (fresh w)) as [st0 [args0| |]]; [|done..].
  destruct (setup_logging w args0 st0) as [st [[]| |]]; [|done..].
  unfold resolve_timeout, getattr, bind, ret, raise.
  destruct (args0 !! "timeout") as [t|] eqn:Ht0; [|done].
  intros Hrun. exists t. split; [done|].
  destruct (decide _); injection Hrun as <- <-; [|done].
  by rewrite lookup_insert_eq.
Qed.

(** The timeout a transport is constructed with is the effective
    [timeout] option, except that -1 has become [None]: the sentinel
    never reaches a transport, every other value does unchanged. *)
Theorem timeout_sentinel w c :
  In (Connect c) (events w) ->
  exists t, effective w "timeout" = Some t /\
            timeout_of c = (if decide (t = VInt (-1)) then VNone else t) /\
            timeout_of c <> VInt (-1).
Proof.
  intros Hin.
  destruct (connect_built w c Hin)
    as (args & st1 & raw & st2 & args' & st3 & E1 & _ & E3 & Hb).
  destruct (preamble_timeout _ _ _ E1) as (t & Ht & Hargs).
  destruct (ask_password_spec _ _ _ _ _ E3) as (_ & evs & _ & Hstep).
  rewrite <- (password_step_other _ _ _ _ "timeout" Hstep) in Hargs by done.
  assert (Hc : args' !! "timeout" = Some (timeout_of c)).
  { destruct c; cbn in Hb |- *; tauto. }
  rewrite Hc in Hargs. injection Hargs as Hargs.
  exists t. split_and!; [done|done|].
  rewrite Hargs. by destruct (decide _).
Qed.

Lemma timeout_sentinel_witness :
  In (Connect (UnixSocketConnection (VStr "/usr/local/var/run/gvmd.sock")
                 (VBool false) VNone))
     (events w_no_timeout) /\
  effective w_no_timeout "timeout" = Some (VInt (-1)) /\
  exists t, effective w_no_timeout "timeout" = Some t /\
            VNone = (if decide (t = VInt (-1)) then VNone else t).
Proof.
  assert (Hin : In (Connect (UnixSocketConnection
                               (VStr "/usr/local/var/run/gvmd.sock")
                               (VBool false) VNone))
                  (events w_no_timeout)) by (vm_compute; auto).
  split; [exact Hin|]. split; [vm_compute; reflexivity|].
  destruct (timeout_sentinel _ _ Hin) as (t & Ht & Hc & _).
  exists t. split; [exact Ht|exact Hc].
Defined.








(** ** One session per run *)

Lemma count_call_app k l1 l2 :
  count_call k (l1 ++ l2) = (count_call k l1 + count_call k l2)%nat.
Proof. unfold count_call. by rewrite List.filter_app, length_app. Qed.

Lemma count_call_early k l : Forall is_early l -> count_call k l = 0%nat.
Proof.
  unfold count_call. induction 1 as [|ev l Hev _ IH]; [done|]. cbn.
  destruct k, ev; try done; by destruct Hev.
Qed.

Lemma count_call_auth w args gvm auth k :
  auth_step w args gvm auth -> (count_call k auth <= 1)%nat /\
  (k <> CAuthenticate -> count_call k auth = 0%nat).
Proof.
  intros [u Hu Ht|u p Hu Ht Hp Ha]; destruct k; cbn; split;
    first [lia|done|intros; congruence].
Qed.

Lemma count_call_session w args gvm xml calls o k :
  session_shape w args gvm xml calls o ->
  (count_call k calls <= 1)%nat /\ count_call CConnect calls = 0%nat.
Proof.
  intros [e He|u p e Hu Ht Hp Ha|auth e Hauth|auth e Hauth|auth r Hauth];
    rewrite ?count_call_app;
    try (destruct (count_call_auth _ _ _ _ k Hauth) as [Hle Hz];
         destruct (count_call_auth _ _ _ _ CConnect Hauth) as [_ Hc];
         rewrite Hc by done);
    destruct k; cbn; try rewrite Hz by done; split; lia.
Qed.

(** A run is one session at most: it calls a constructor, and
    [authenticate], [send], [read] and [close], at most once each;
    nothing is retried. *)
Theorem at_most_one_call w k : (count_call k (events w) <= 1)%nat.
Proof.
  destruct (run_shape_total w)
    as [He _ _|args st1 raw st2 args' st3 e attempt _ _ _ H3 Hf Hev _
       |args st1 raw st2 args' st3 gvm calls _ _ _ H3 _ _ Hs Hev].
  - rewrite (count_call_early _ _ He). lia.
  - rewrite Hev, !count_call_app, (count_call_early _ _ H3).
    destruct Hf as [->|(c & -> & _)]; destruct k; cbn; lia.
  - rewrite Hev, !count_call_app, (count_call_early _ _ H3).
    destruct (count_call_session _ _ _ _ _ _ k Hs) as [Hle Hc].
    destruct k; cbn; rewrite ?Hc; lia.
Qed.

(** A run that reaches [close()] is a completed session, in this
    order: the input and the password are obtained first, then one
    transport is constructed, authenticated on if there is a username,
    sent the payload and read from; the response is printed as [read]
    returned it, the transport is closed, and the exit status is 0. *)
Theorem completed_run w :
  In Close (events w) ->
  exists pre gvm auth xml result,
    events w = pre ++ [Connect gvm] ++ auth
                   ++ [Send xml; Read; Print result; Close] /\
    Forall is_early pre /\
    connect w gvm = None /\
    (auth = [] \/
     exists u p, auth = [Authenticate u p] /\
                 authenticate w gvm u p = None) /\
    send w gvm xml = None /\
    read w gvm xml = inr result /\
    (run w).2 = Exited 0.
Proof.
  intros Hin.
  destruct (run_shape_total w)
    as [He _ _|args st1 raw st2 args' st3 e attempt _ _ _ H3 Hf Hev _
       |args st1 raw st2 args' st3 gvm calls _ _ _ H3 Hc _ Hs Hev].
  - by destruct (early_in _ _ He Hin).
  - rewrite Hev in Hin. split_in Hin; [by destruct (early_in _ _ H3 Hin)|].
    split_in Hin; [|by destruct Hin as [|[]]].
    destruct Hf as [?|(c & ? & _)]; subst attempt; [done|].
    by destruct Hin as [|[]].
  - rewrite Hev in Hin. apply late_in in Hin; auto.
    assert (Hshape : exists auth result,
              calls = auth ++ [Send (strip_newlines raw); Read;
                               Print result; Close] /\
              auth_step w args' gvm auth /\
              send w gvm (strip_newlines raw) = None /\
              read w gvm (strip_newlines raw) = inr result /\
              (run w).2 = Exited 0).
    { destruct Hs as [e He|u p e Hu Ht Hp Ha|auth e Hauth Hsend
                     |auth e Hauth Hsend Hread|auth r Hauth Hsend Hread].
      - done.
      - by destruct Hin as [|[]].
      - split_in Hin; [|by destruct Hin as [|[]]].
        by destruct (auth_step_calls _ _ _ _ _ Hauth Hin) as (? & ? & ? & _).
      - split_in Hin; [|by destruct Hin as [|[|[]]]].
        by destruct (auth_step_calls _ _ _ _ _ Hauth Hin) as (? & ? & ? & _).
      - by exists auth, r. }
    destruct Hshape as (auth & result & -> & Hauth & Hsend & Hread & Ho).
    exists (trace st3), gvm, auth, (strip_newlines raw), result.
    split_and!; try done.
    destruct Hauth as [u Hu Ht|u p Hu Ht Hp Ha]; [by left|].
    right. by exists u, p.
Qed.

Lemma completed_run_witness :
  In Close (events w_admin) /\
  events w_admin
  = [Connect gvmd_socket; Authenticate (VStr "admin") (VStr "pw");
     Send "<get_tasks/>"; Read; Print "<response to='<get_tasks/>'/>";
     Close] /\
  (run w_admin).2 = Exited 0.
Proof.
  assert (Hin : In Close (events w_admin)) by (vm_compute; auto 10).
  split; [exact Hin|]. split; [vm_compute; reflexivity|].
  by destruct (completed_run _ Hin) as (? & ? & ? & ? & ? & _ & _ & _ & _ & _ & _ & Ho).
Defined.

(** ** Runs that end in the argument parser *)


(** The parser ends in a namespace, a usage error, or help. *)
Lemma parse_args_outcome w defaults st :
  match (parse_args w defaults st).2 with
  | Return _ => True
  | Raised _ => False
  | Exited c => (c = 0 /\ cl_help_or_version w = true) \/
                (c = 2 /\ cl_help_or_version w = false)
  end.
Proof.
  unfold parse_args, sys_exit, ret.
  destruct (cl_help_or_version w); [cbn; auto|].
  destruct (cl_connection_type w) as [name|]; [|cbn; auto].
  destruct (name_parser_map _ name) as [sub|]; [|cbn; auto].
  destruct (parse_known_args sub (cl_options w)); cbn; auto.
Qed.





(** ** Input that cannot be had *)

Lemma prepared_inv w :
  prepared w -> exists st1 args, preamble w (fresh w) = (st1, Return args).
Proof.
  unfold prepared. destruct (preamble w (fresh w)) as [st1 [args| |]];
    [eauto|done..].
Qed.

Lemma run_after_preamble w st1 args :
  preamble w (fresh w) = (st1, Return args) ->
  run w = (let! raw := acquire_xml w args in main_tail w args raw) st1.
Proof.
  intros E1. unfold run. rewrite main_unfold. unfold bind at 1.
  by rewrite E1.
Qed.

(** An empty pipe: with no [--xml] and a standard input that is no
    terminal and holds nothing, the stream is read, found empty, and
    [input()] then meets the end of the same stream.  The run ends on
    the uncaught [EOFError], with status 1 and without any transport. *)
Theorem empty_pipe_ends_in_eof w :
  prepared w -> effective w "xml" = Some VNone ->
  cl_infile w = None -> stdin_isatty w = false ->
  infile_read_error w = None -> stdin_data w = "" ->
  (run w).2 = Raised (Exn EOFError "EOF when reading a line") /\
  status w = 1 /\
  exists pre, events w = pre ++ [InfileRead; Input] /\ Forall is_print pre.
Proof.
  intros Hp Hxml Hfile Htty Herr Hdata.
  destruct (prepared_inv w Hp) as (st1 & args & E1).
  destruct (preamble_prints _ _ _ E1) as [Hstdin Hprints].
  assert (Hx : args !! "xml" = Some VNone)
    by (by rewrite (preamble_effective _ _ _ _ E1)).
  assert (Hrun : run w
                 = ({| stdin := ""; trace := trace st1 ++ [InfileRead; Input] |},
                    Raised (Exn EOFError "EOF when reading a line"))).
  { rewrite (run_after_preamble _ _ _ E1).
    unfold acquire_xml, flag_or_stream, ask_if_empty, infile_read,
      infile_isatty, input, stdin_read, stdin_line, getattr, lift_error,
      try_except, bind, ret, emit.
    rewrite Hx, Hfile, Htty, Herr. cbn. rewrite Hstdin, Hdata. cbn.
    by rewrite <- app_assoc. }
  unfold status, events. rewrite Hrun. split_and!; [done|done|].
  by exists (trace st1).
Qed.

Lemma empty_pipe_ends_in_eof_witness :
  prepared (w_piped "") /\
  effective (w_piped "") "xml" = Some VNone /\
  events (w_piped "") = [InfileRead; Input] /\
  status (w_piped "") = 1.
Proof.
  assert (Hp : prepared (w_piped "")) by (vm_compute; exact I).
  assert (Hx : effective (w_piped "") "xml" = Some VNone)
    by (vm_compute; reflexivity).
  split; [exact Hp|]. split; [exact Hx|]. split; [vm_compute; reflexivity|].
  apply (empty_pipe_ends_in_eof (w_piped "") Hp Hx); reflexivity.
Defined.

(** Errors of reading the stream (lines 177-180).  [EOFError] and
    [BlockingIOError] are printed and the run goes on to ask for a line;
    any other exception of [read()] is not caught: it ends the run with
    status 1 before anything is asked or constructed. *)
Theorem stream_read_error w e :
  prepared w -> effective w "xml" = Some VNone ->
  infile_isatty w = false -> infile_read_error w = Some e ->
  (exn_cls e = EOFError \/ exn_cls e = BlockingIOError ->
   exists pre rest,
     events w = pre ++ [InfileRead; Print (exn_msg e); Input] ++ rest /\
     Forall is_print pre) /\
  (exn_cls e <> EOFError -> exn_cls e <> BlockingIOError ->
   (run w).2 = Raised e /\
   exists pre, events w = pre ++ [InfileRead] /\ Forall is_print pre).
Proof.
  intros Hp Hxml Htty Herr.
  destruct (prepared_inv w Hp) as (st1 & args & E1).
  destruct (preamble_prints _ _ _ E1) as [Hstdin Hprints].
  assert (Hx : args !! "xml" = Some VNone)
    by (by rewrite (preamble_effective _ _ _ _ E1)).
  split.
  - intros Hcls.
    assert (Hacq : acquire_xml w args st1
                   = input {| stdin := stdin st1;
                              trace := trace st1
                                       ++ [InfileRead; Print (exn_msg e)] |}).
    { unfold acquire_xml, flag_or_stream, ask_if_empty, infile_read, getattr,
        lift_error, try_except, print, bind, ret, raise, emit.
      rewrite Hx, Htty, Herr. cbn.
      destruct Hcls as [-> | ->]; cbn; by rewrite <- !app_assoc. }
    unfold events. rewrite (run_after_preamble _ _ _ E1). unfold bind.
    rewrite Hacq.
    destruct (input _) as [st2 o2] eqn:E2.
    destruct (input_spec _ _ _ E2) as [Ht2 _]. cbn in Ht2.
    destruct o2 as [raw|e'|c'].
    + destruct (main_tail w args raw st2) as [st3 o3] eqn:E3.
      destruct (main_tail_emits _ _ _ _ _ _ E3) as [(evs & Ht3 & _) _].
      exists (trace st1), evs. split; [|done]. cbn.
      rewrite Ht3, Ht2. by rewrite <- !app_assoc.
    + exists (trace st1), []. split; [|done]. cbn.
      rewrite Ht2. by rewrite <- !app_assoc.
    + exists (trace st1), []. split; [|done]. cbn.
      rewrite Ht2. by rewrite <- !app_assoc.
  - intros Hne1 Hne2.
    assert (Hrun : run w = ({| stdin := stdin st1;
                               trace := trace st1 ++ [InfileRead] |},
                            Raised e)).
    { rewrite (run_after_preamble _ _ _ E1).
      unfold acquire_xml, flag_or_stream, ask_if_empty, infile_read, getattr,
        lift_error, try_except, print, bind, ret, raise, emit.
      rewrite Hx, Htty, Herr. cbn. by destruct (exn_cls e). }
    unfold events. rewrite Hrun. split; [done|]. by exists (trace st1).
Qed.

Lemma stream_read_error_witness :
  prepared (w_read_error decode_error) /\
  effective (w_read_error decode_error) "xml" = Some VNone /\
  (run (w_read_error decode_error)).2 = Raised decode_error /\
  events (w_read_error (Exn EOFError ""))
  = [InfileRead; Print ""; Input].
Proof.
  assert (Hp : prepared (w_read_error decode_error)) by (vm_compute; exact I).
  assert (Hx : effective (w_read_error decode_error) "xml" = Some VNone)
    by (vm_compute; reflexivity).
  split; [exact Hp|]. split; [exact Hx|]. split; [|vm_compute; reflexivity].
  destruct (stream_read_error (w_read_error decode_error) decode_error
              Hp Hx eq_refl eq_refl) as [_ Hother].
  apply Hother; discriminate.
Defined.

Lemma keeps_lift_result {A} (r : exn + A) : keeps_stdin (lift_result r).
Proof. destruct r; [apply keeps_raise|apply keeps_ret]. Qed.

Lemma keeps_as_str v : keeps_stdin (as_str v).
Proof. destruct v; first [apply keeps_ret|apply keeps_raise]. Qed.

Lemma keeps_py_in needle v : keeps_stdin (py_in needle v).
Proof. destruct v; first [apply keeps_ret|apply keeps_raise]. Qed.

#[global] Hint Resolve keeps_lift_result keeps_as_str keeps_py_in : keeps.




(** ** Logging *)

(** Lines 161-164 come before anything is read or asked: when
    [logging.basicConfig] raises for the requested level, the run ends
    there with status 1. *)
Theorem logging_failure w level e :
  effective w "loglevel" = Some level -> level <> VNone ->
  basicConfig w level = Some e ->
  (run w).2 = Raised e /\ status w = 1 /\ Forall is_print (events w).
Proof.
  intros Hl Hlevel Hb.
  assert (Hpre : (preamble w (fresh w)).2 = Raised e).
  { revert Hl. unfold effective, preamble, setup_logging, getattr,
      lift_error, bind.
    destruct (resolve_args w (fresh w)) as [st0 [args| |]]; [|done..].
    intros ->. destruct level; try done; cbn; by rewrite Hb. }
  destruct (preamble w (fresh w)) as [st1 o1] eqn:E1.
  destruct (preamble_prints _ _ _ E1) as [_ Hp]. cbn in Hpre. subst o1.
  unfold status, events, run. rewrite main_unfold. unfold bind.
  by rewrite E1.
Qed.

Lemma logging_failure_witness :
  effective w_log_denied "loglevel" = Some (VStr "DEBUG") /\
  basicConfig w_log_denied (VStr "DEBUG")
  = Some (os_error "Permission denied") /\
  (run w_log_denied).2 = Raised (os_error "Permission denied") /\
  events w_log_denied = [].
Proof.
  assert (Hl : effective w_log_denied "loglevel" = Some (VStr "DEBUG"))
    by (vm_compute; reflexivity).
  split; [exact Hl|]. split; [reflexivity|].
  split; [|vm_compute; reflexivity].
  apply (logging_failure w_log_denied (VStr "DEBUG")
           (os_error "Permission denied") Hl); [discriminate|reflexivity].
Defined.

(** ** The password prompt *)

Lemma connect_and_session_emits w args xml :
  emits asks_nothing (fun _ => True) (connect_and_session w args xml).
Proof.
  unfold connect_and_session, open_connection, build_connection, construct,
    session, gvm_authenticate, gvm_send, gvm_read, gvm_close, print.
  frame; exact I.
Qed.

(** Lines 189-192, whatever their outcome: nothing happens, or the
    prompt for the user's password is shown and its result decides. *)
Lemma ask_password_cases w args st st' o :
  ask_password w args st = (st', o) ->
  trace st' = trace st \/
  exists name p,
    args !! "gmp_username" = Some (VStr name) /\ name <> "" /\
    args !! "gmp_password" = Some p /\ truthy p = false /\
    trace st' = trace st ++ [Getpass (password_prompt name)] /\
    o = match getpass w (password_prompt name) with
        | inl e => Raised e
        | inr secret => Return (<[ "gmp_password" := VStr secret ]> args)
        end.
Proof.
  unfold ask_password, call_getpass, getattr, as_str, lift_result,
    bind, ret, raise, emit.
  intros Hrun.
  destruct (args !! "gmp_username") as [u|] eqn:Hu;
    [|injection Hrun as <- <-; by left].
  destruct (truthy u) eqn:Ht; [|injection Hrun as <- <-; by left].
  destruct (args !! "gmp_password") as [p|] eqn:Hp;
    [|injection Hrun as <- <-; by left].
  destruct (truthy p) eqn:Htp; cbn in Hrun;
    [injection Hrun as <- <-; by left|].
  destruct u as [|name| |]; try (injection Hrun as <- <-; by left).
  right. exists name, p. cbn in Hrun. fold (password_prompt name) in Hrun.
  assert (Hname : name <> "").
  { intros ->. discriminate Ht. }
  destruct (getpass w (password_prompt name)) as [e|secret];
    injection Hrun as <- <-; by split_and!.
Qed.

(** The password is asked for only when there is a username and no
    password, and the prompt names that user.  When the prompt fails,
    the run ends on its exception, before any transport is
    constructed. *)
Theorem password_prompt_conditions w prompt :
  In (Getpass prompt) (events w) ->
  (exists name p,
     effective w "gmp_username" = Some (VStr name) /\ name <> "" /\
     effective w "gmp_password" = Some p /\ truthy p = false /\
     prompt = password_prompt name) /\
  (forall e, getpass w prompt = inl e ->
             (run w).2 = Raised e /\
             forall c, ~ In (Connect c) (events w)).
Proof.
  unfold events, run. rewrite main_unfold. unfold bind. intros Hin.
  destruct (preamble w (fresh w)) as [st1 o1] eqn:E1.
  destruct (preamble_prints _ _ _ E1) as [_ Hp1].
  assert (H1 : Forall asks_nothing (trace st1)).
  { eapply Forall_impl; [exact Hp1|]. by intros []. }
  assert (Hno : forall l, Forall asks_nothing l ->
                          ~ In (Getpass prompt) l).
  { intros l Hl Hg. by apply (proj1 (List.Forall_forall _ _) Hl) in Hg. }
  destruct o1 as [args|e1|c1]; cbn in Hin; [|by destruct (Hno _ H1 Hin)..].
  destruct (acquire_xml w args st1) as [st2 o2] eqn:E2.
  assert (H2 : ~ In (Getpass prompt) (trace st2) /\
               forall c, ~ In (Connect c) (trace st2)).
  { destruct (acquire_xml_emits _ _ _ _ _ E2) as [(evs & -> & Hevs) _].
    split; [|intros c]; intros Hev; split_in Hev.
    - by apply (proj1 (List.Forall_forall _ _) Hp1) in Hev.
    - by apply (proj1 (List.Forall_forall _ _) Hevs) in Hev.
    - by apply (proj1 (List.Forall_forall _ _) Hp1) in Hev.
    - by apply (proj1 (List.Forall_forall _ _) Hevs) in Hev. }
  destruct H2 as [H2 H2c].
  destruct o2 as [raw|e2|c2]; cbn in Hin; [|done..].
  unfold main_tail, bind in Hin |- *.
  destruct (ask_password w args st2) as [st3 o3] eqn:E3.
  assert (Hrest : forall args',
            ~ In (Getpass prompt) (trace st3) ->
            ~ In (Getpass prompt)
                (trace (connect_and_session w args' (strip_newlines raw)
                          st3).1)).
  { intros args' Hst3 Hg.
    destruct (connect_and_session w args' (strip_newlines raw) st3)
      as [st5 o5] eqn:E5.
    destruct (connect_and_session_emits _ _ _ _ _ _ E5)
      as [(evs & Ht5 & Hevs) _].
    cbn in Hg. rewrite Ht5 in Hg. split_in Hg; [done|].
    by destruct (Hno _ Hevs Hg). }
  destruct (ask_password_cases _ _ _ _ _ E3)
    as [Ht3|(name & p & Hu & Hname & Hpw & Htp & Ht3 & Ho3)].
  { exfalso.
    assert (Hst3 : ~ In (Getpass prompt) (trace st3)) by (by rewrite Ht3).
    destruct o3 as [args'|e3|c3]; cbn in Hin; [|done..].
    by apply (Hrest args'). }
  assert (Hprompt : prompt = password_prompt name).
  { destruct (decide (prompt = password_prompt name)) as [|Hne]; [done|].
    exfalso.
    assert (Hst3 : ~ In (Getpass prompt) (trace st3)).
    { rewrite Ht3. intros Hg. split_in Hg; [done|].
      destruct Hg as [[= Hg]|[]]. by destruct Hne. }
    destruct o3 as [args'|e3|c3]; cbn in Hin; [|done..].
    by apply (Hrest args'). }
  split.
  - exists name, p.
    rewrite <- !(preamble_effective _ _ _ _ E1) by done. by split_and!.
  - intros e He. rewrite Hprompt in He. rewrite He in Ho3. subst o3. cbn.
    split; [done|]. intros c Hc. rewrite Ht3 in Hc. split_in Hc.
    + by apply (H2c c).
    + by destruct Hc as [|[]].
Qed.

Lemma password_prompt_conditions_witness :
  In (Getpass (password_prompt "admin")) (events w_no_terminal) /\
  getpass w_no_terminal (password_prompt "admin") = inl (Exn EOFError "") /\
  (run w_no_terminal).2 = Raised (Exn EOFError "") /\
  events w_no_terminal = [Getpass "Enter password for admin: "].
Proof.
  assert (Hin : In (Getpass (password_prompt "admin")) (events w_no_terminal))
    by (vm_compute; auto).
  split; [exact Hin|]. split; [reflexivity|].
  split; [|vm_compute; reflexivity].
  destruct (password_prompt_conditions _ _ Hin) as [_ Hfail].
  by apply Hfail.
Defined.

(** ** The stages of a run *)

(** [main] stage by stage.  Only the parser and what follows line 194
    end the process through [sys.exit]. *)
Lemma run_anatomy w :
  exists st1 o1,
    preamble w (fresh w) = (st1, o1) /\
    match o1 with
    | Return args =>
        exists st2 o2,
          acquire_xml w args st1 = (st2, o2) /\
          match o2 with
          | Return raw =>
              exists st3 o3,
                ask_password w args st2 = (st3, o3) /\
                match o3 with
                | Return args' =>
                    run w = connect_and_session w args'
                              (strip_newlines raw) st3
                | Raised e => run w = (st3, Raised e)
                | Exited _ => False
                end
          | Raised e => run w = (st2, Raised e)
          | Exited _ => False
          end
    | Raised e => run w = (st1, Raised e) /\ parses w
    | Exited c =>
        run w = (st1, Exited c) /\
        (resolve_args w (fresh w)).2 = Exited c
    end.
Proof.
  unfold run. rewrite main_unfold. unfold bind.
  destruct (preamble w (fresh w)) as [st1 o1] eqn:E1.
  exists st1, o1. split; [done|].
  destruct o1 as [args|e|c].
  - destruct (acquire_xml w args st1) as [st2 o2] eqn:E2.
    exists st2, o2. split; [done|].
    destruct (acquire_xml_emits w args _ _ _ E2) as [_ Hx2].
    destruct o2 as [raw|e|c]; [|done|by apply (Hx2 c)].
    unfold main_tail, connect_and_session, bind.
    destruct (ask_password w args st2) as [st3 o3] eqn:E3.
    exists st3, o3. split; [done|].
    destruct (ask_password_emits w args _ _ _ E3) as [_ Hx3].
    destruct o3 as [args'|e|c]; [done|done|by apply (Hx3 c)].
  - split; [done|]. revert E1. unfold preamble, parses, bind.
    pose proof (resolve_args_outcome w) as Ho.
    pose proof (parse_args_outcome w
                  (default builtin_defaults (file_layer w)) (fresh w)) as Hp.
    rewrite <- Ho in Hp.
    by destruct (resolve_args w (fresh w)) as [st0 [args0|e0|c0]].
  - split; [done|]. revert E1. unfold preamble, bind.
    destruct (resolve_args w (fresh w)) as [st0 [args0|e0|c0]]; cbn;
      [|done|by intros [= _ ->]].
    unfold setup_logging, resolve_timeout, getattr, lift_error, bind,
      ret, raise.
    intros Hrun. repeat case_match; simplify_eq.
Qed.

(** Lines 194-223 as a whole: the handler of line 210, or a session
    on the constructed transport. *)
Lemma connect_and_session_spec w args xml st st' o :
  connect_and_session w args xml st = (st', o) ->
  (exists e attempt,
     failed_attempt w args e attempt /\
     trace st' = trace st ++ attempt ++ [Print (exn_msg e)] /\
     o = Exited 1) \/
  (exists gvm calls,
     connect w gvm = None /\ selects args gvm /\
     session_shape w args gvm xml calls o /\
     trace st' = trace st ++ [Connect gvm] ++ calls).
Proof.
  unfold connect_and_session, open_connection, try_except, bind.
  destruct (build_connection w args st) as [st4 o4] eqn:E4.
  destruct (build_connection_spec _ _ _ _ _ E4) as [_ Hb].
  destruct o4 as [gvm|e|c]; [| |done].
  - destruct Hb as (Ht4 & Hc & Hsel). intros E5.
    destruct (session_spec _ _ _ _ _ _ _ E5) as (_ & calls & Ht5 & Hs).
    right. exists gvm, calls. split_and!; try done.
    by rewrite Ht5, Ht4, <- app_assoc.
  - destruct Hb as (attempt & Ht4 & Hf).
    unfold print, emit, sys_exit, bind. cbn. intros [= <- <-].
    left. exists e, attempt. split_and!; try done.
    cbn. by rewrite Ht4, <- app_assoc.
Qed.


(** ** Exit statuses *)



(** ** What is printed *)







(** ** The order of the stages *)

(** Whatever the run, its events come in this order: first what lines
    96-184 do (messages, the read of the stream, the [input()] line),
    then at most one password prompt, then the transport.  Once a
    constructor has been called, nothing is read or asked any more: a
    run never waits for the user with a connection open. *)
Theorem stages_in_order w :
  exists inputs prompt rest,
    events w = inputs ++ prompt ++ rest /\
    Forall is_input_event inputs /\
    (prompt = [] \/ exists p, prompt = [Getpass p]) /\
    Forall asks_nothing rest /\
    (forall ev, In ev rest -> is_connect ev \/ is_session_call ev \/
                              is_print ev).
Proof.
  destruct (run_anatomy w) as (st1 & o1 & E1 & H).
  destruct (preamble_emits w _ _ _ E1) as [(evs1 & Ht1 & Hevs1) _].
  cbn in Ht1.
  assert (Hin1 : Forall is_input_event evs1).
  { eapply Forall_impl; [exact Hevs1|]. by intros []. }
  unfold events.
  destruct o1 as [args|e|c];
    [|destruct H as [H _]; rewrite H; exists evs1, [], [];
      rewrite !app_nil_r; split_and!; by auto..].
  destruct H as (st2 & o2 & E2 & H).
  destruct (acquire_xml_emits w args _ _ _ E2) as [(evs2 & Ht2 & Hevs2) _].
  assert (Hin2 : Forall is_input_event (evs1 ++ evs2)).
  { apply Forall_app. by split. }
  destruct o2 as [raw|e|c];
    [|rewrite H; cbn; exists (evs1 ++ evs2), [], [];
      rewrite !app_nil_r, Ht2, Ht1; split_and!; by auto|done].
  destruct H as (st3 & o3 & E3 & H).
  assert (Hprompt : exists prompt,
            trace st3 = (evs1 ++ evs2) ++ prompt /\
            (prompt = [] \/ exists p, prompt = [Getpass p])).
  { destruct (ask_password_cases _ _ _ _ _ E3)
      as [Ht3|(name & p & _ & _ & _ & _ & Ht3 & _)].
    - exists []. rewrite Ht3, Ht2, Ht1, app_nil_r. by auto.
    - exists [Getpass (password_prompt name)]. rewrite Ht3, Ht2, Ht1.
      split; [done|]. right. by eexists. }
  destruct Hprompt as (prompt & Ht3 & Hprompt).
  destruct o3 as [args'|e|c];
    [|rewrite H; cbn; exists (evs1 ++ evs2), prompt, [];
      rewrite app_nil_r; split_and!; by auto|done].
  rewrite H.
  destruct (connect_and_session w args' (strip_newlines raw) st3)
    as [st5 o5] eqn:E5. cbn.
  exists (evs1 ++ evs2), prompt.
  destruct (connect_and_session_spec _ _ _ _ _ _ E5)
    as [(e & attempt & Hf & Ht5 & ->)
       |(gvm & calls & Hc & Hsel & Hs & Ht5)].
  - exists (attempt ++ [Print (exn_msg e)]).
    rewrite Ht5, Ht3, <- !app_assoc. split_and!; try done.
    + destruct Hf as [->|(c & -> & _)]; by repeat constructor.
    + intros ev Hin.
      destruct Hf as [->|(c & -> & _)]; cbn in Hin;
        intuition (subst; cbn; auto).
  - exists ([Connect gvm] ++ calls).
    rewrite Ht5, Ht3, <- !app_assoc. split_and!; try done.
    + constructor; [done|].
      session_cases Hs; by repeat constructor.
    + intros ev [<-|Hin]; [by left|]. right.
      session_cases Hs; intuition (subst; cbn; auto).
Qed.

(** ** The command lines the parser accepts *)



